(** * Elementwise, linear-algebra and reduction operators of gorgonia

    A shallow embedding of the operator layer found in
    [operatorPointwise_binary.go], [op_reduction.go] and the file holding
    [elemBinOp], [elemUnaryOp] and [linAlgBinOp], followed by the properties
    of that code.

    Conventions.  Go's [int] is [Z]; a slice is a [list]; an [interface{}]
    holding a primitive is [Raw]; a Go function returning [(T, error)] is a
    computation in [Outcome T], where [Ret] is a return with a nil error,
    [Fail] a return with a non-nil error and [Panic] a run-time panic.  Code
    that touches tensor storage runs in the state monad [M] over [World]. *)

From Stdlib Require Import ZArith Bool Lia.
From Stdlib Require Import SpecFloat.
From stdpp Require Import base option list gmap strings.

Local Open Scope Z_scope.

(* ================================================================= *)
(** ** Dtypes, raw numbers and IEEE arithmetic *)

(** Modelled from the spec: the [Dtype] enumeration is declared outside the
    files at hand.  [Float64] and [Float32] are the element types the
    operators support, [Bool] is the dtype of comparison results; the other
    members only ever reach a [default] branch. *)
Inductive Dtype := Float64 | Float32 | Int | Int64 | Int32 | Byte | Bool.

#[global] Instance Dtype_eq_dec : EqDecision Dtype.
Proof. solve_decision. Defined.

(** A Go [float64] is a binary64 number, a [float32] a binary32 number. *)
Definition prec64 : Z := 53.
Definition emax64 : Z := 1024.
Definition prec32 : Z := 24.
Definition emax32 : Z := 128.

Definition float64_of_Z (z : Z) : spec_float := binary_normalize prec64 emax64 z 0 false.
Definition float32_of_Z (z : Z) : spec_float := binary_normalize prec32 emax32 z 0 false.

(** [float32(x)] for a [float64] value [x]: round to nearest even in binary32. *)
Definition to_float32 (x : spec_float) : spec_float :=
  match x with
  | S754_finite s m e => binary_round prec32 emax32 s m e
  | _ => x
  end.

(** The contents of an [interface{}] that holds a primitive (or nothing). *)
Inductive Raw :=
| RNil
| RF64 (x : spec_float)
| RF32 (x : spec_float)
| RBool (b : bool)
| RInt (z : Z).

(* ================================================================= *)
(** ** Operator catalog *)

(** Modelled from the spec: the closed enumeration of binary elementwise
    kinds, declared outside the files at hand.  The Go type is a byte, so a
    value at or past the end marker can be formed; the end marker
    [maxBinaryOpType] stands for all of them. *)
Inductive BinaryOperatorType :=
| addOpType | subOpType | mulOpType | divOpType | powOpType
| ltOpType | gtOpType | lteOpType | gteOpType | eqOpType | neOpType
| maxBinaryOpType.

#[global] Instance BinaryOperatorType_eq_dec : EqDecision BinaryOperatorType.
Proof. solve_decision. Defined.

(** Modelled from the spec: each kind is tagged arithmetic or comparison. *)
Definition isArith (b : BinaryOperatorType) : bool :=
  match b with
  | addOpType | subOpType | mulOpType | divOpType | powOpType => true
  | _ => false
  end.

Definition isCmp (b : BinaryOperatorType) : bool :=
  match b with
  | ltOpType | gtOpType | lteOpType | gteOpType | eqOpType | neOpType => true
  | _ => false
  end.

(** The byte behind a kind ([iota] numbering). *)
Definition binOpByte (b : BinaryOperatorType) : Z :=
  match b with
  | addOpType => 0 | subOpType => 1 | mulOpType => 2 | divOpType => 3
  | powOpType => 4 | ltOpType => 5 | gtOpType => 6 | lteOpType => 7
  | gteOpType => 8 | eqOpType => 9 | neOpType => 10 | maxBinaryOpType => 11
  end.

(** Kinds of the linear-algebra operator [āBinaryOperator]. *)
Inductive LinAlgOperator :=
| matMulOperator | matVecMulOperator | vecDotOperator | outerProdOperator
| invalidLinAlgOperator.

#[global] Instance LinAlgOperator_eq_dec : EqDecision LinAlgOperator.
Proof. solve_decision. Defined.

(* ================================================================= *)
(** ** Shapes *)

Abbreviation Shape := (list Z).

(** Modelled from the spec: shape helpers of the tensor [types] package. *)
Definition scalarShape : Shape := [1].
Definition oneone : Shape := [1; 1].

Definition Shape_IsScalar (s : Shape) : bool :=
  match s with
  | [] => true
  | [n] => n =? 1
  | _ => false
  end.

Definition Shape_IsColVec (s : Shape) : bool :=
  match s with
  | [r; c] => (c =? 1) && (1 <? r)
  | _ => false
  end.

Definition Shape_IsRowVec (s : Shape) : bool :=
  match s with
  | [r; c] => (r =? 1) && (1 <? c)
  | _ => false
  end.

Definition Shape_IsVector (s : Shape) : bool :=
  Shape_IsColVec s || Shape_IsRowVec s ||
  match s with [n] => 1 <? n | _ => false end.

Definition Shape_Eq (s t : Shape) : bool := bool_decide (s = t).

Definition Shape_TotalSize (s : Shape) : Z := foldr Z.mul 1 s.

(** [IsMonotonicInts a] returns [(monotonic, incr1)]: whether [a] never
    decreases, and whether each element is its predecessor plus one. *)
Fixpoint IsMonotonicInts_from (prev : Z) (a : list Z) (incr1 : bool) : bool * bool :=
  match a with
  | [] => (true, incr1)
  | v :: rest =>
      if v <? prev then (false, false)
      else IsMonotonicInts_from v rest (if v =? prev + 1 then incr1 else false)
  end.

Definition IsMonotonicInts (a : list Z) : bool * bool :=
  match a with
  | [] => (true, true)
  | v :: rest => IsMonotonicInts_from v rest true
  end.

(* ================================================================= *)
(** ** Types, values and errors *)

(** Modelled from the spec: operand-type descriptors.  A pruned operand type
    is a [Dtype] or a [*TensorType]; type variables and function types are
    the other implementations of the [Type] interface. *)
Inductive Ty :=
| TyDtype (d : Dtype)
| TyTensor (dims : Z) (elt : Ty)
| TyVar (name : string)
| TyFun (dom cod : Ty).

(** The dynamic type behind the [types.Tensor] interface. *)
Inductive TensorImpl := tf64_Tensor | tf32_Tensor | ti_Tensor | tb_Tensor.

#[global] Instance TensorImpl_eq_dec : EqDecision TensorImpl.
Proof. solve_decision. Defined.

(** A [Tensor] value wraps a pointer to tensor storage. *)
Record Tensor := mkTensor { impl : TensorImpl; addr : positive }.

Record Scalar := mkScalar { s_v : Raw; s_t : Dtype }.

(** The [Value] interface: [Scalar] and [Tensor] implement it; [VNil] is the
    nil interface value and [VOther] any other implementation, given by what
    its [Dtype()] and [Type()] methods return. *)
Inductive Value :=
| VNil
| VScalar (s : Scalar)
| VTensor (T : Tensor)
| VOther (dt : Dtype) (ty : Ty).

(** Something held in an [interface{}]: a primitive or a tensor. *)
Inductive Any :=
| AnyRaw (r : Raw)
| AnyTensor (T : Tensor).

(** Execution options handed to the tensor kernels. *)
Inductive FuncOpt :=
| UseUnsafe
| AsSameType
| WithReuse (T : Tensor)
| WithIncr (T : Tensor).

(** First argument of [NewError]. *)
Inductive errKind := GraphError | NotYetImplemented.

(** Format strings.  The named ones are package constants of the repository;
    [Lit] is a format written out at the call site. *)
Inductive Format :=
| Lit (s : string)
| nyiFail | doFail | unsafeDoFail | tFail | applyFail | operationError
| autodiffFail.

(** Go [error] values.  The operands substituted into a format are not
    tracked.  [noIncrErr] is the error that carries a value to be stored by
    the caller. *)
Inductive error :=
| errors_New (msg : string)
| errors_Errorf (f : Format)
| NewError (k : errKind) (f : Format)
| errors_Wrap (cause : error) (f : Format)
| noIncrErr (retVal : Value).

Inductive Outcome (A : Type) : Type :=
| Ret (a : A)
| Fail (e : error)
| Panic (msg : string).
Arguments Ret {A} a.
Arguments Fail {A} e.
Arguments Panic {A} msg.

Definition obind {A B} (c : Outcome A) (k : A -> Outcome B) : Outcome B :=
  match c with
  | Ret a => k a
  | Fail e => Fail e
  | Panic m => Panic m
  end.

(** [x.(T)] applied to something that is not a [T] *)
Definition typeAssertPanic : string := "interface conversion".
(** [s[i]] with [i] out of range *)
Definition indexPanic : string := "index out of range".
(** method call through a nil interface or pointer *)
Definition nilPanic : string := "nil pointer dereference".

(** [l[i]] for a slice [l]. *)
Definition index {A} (l : list A) (i : nat) : Outcome A :=
  match l !! i with
  | Some x => Ret x
  | None => Panic indexPanic
  end.

(** [l[i] = x] for a slice [l] and a Go [int] index. *)
Definition setIndex {A} (l : list A) (i : Z) (x : A) : Outcome (list A) :=
  if (0 <=? i) && (i <? Z.of_nat (length l))
  then Ret (<[Z.to_nat i := x]> l)
  else Panic indexPanic.

(* ================================================================= *)
(** ** Tensor storage and the state monad *)

(** The access pattern of a tensor: its shape and whether it is currently
    transposed. *)
Record View := mkView { v_shape : Shape; v_transposed : bool }.

Record TensorObj := mkTensorObj { t_view : View; t_data : list spec_float }.

Abbreviation Heap := (gmap positive TensorObj).

(** One invocation of an external numeric kernel, with its options. *)
Inductive KernelName :=
| ElemKernel (d : Dtype) (b : BinaryOperatorType)
| LinAlgKernel (o : LinAlgOperator)
| ApplyKernel
| SumKernel.

Record KernelCall := mkCall { k_name : KernelName; k_a : Any; k_b : Any; k_opts : list FuncOpt }.

(** A dual value: a value and its derivative. *)
Record dualValue := mkDualValue { dv_Value : Value; dv_d : Value }.

(** The tensor storage, the kernel invocations made so far (newest first),
    and the dual values that nodes point to. *)
Record World := mkWorld {
  heap : Heap;
  klog : list KernelCall;
  duals : gmap positive dualValue
}.

Definition setHeap (h : Heap) (w : World) : World := mkWorld h (klog w) (duals w).
Definition logCall (c : KernelCall) (w : World) : World :=
  mkWorld (heap w) (c :: klog w) (duals w).
Definition setDual (p : positive) (dv : dualValue) (w : World) : World :=
  mkWorld (heap w) (klog w) (<[p := dv]> (duals w)).

Definition M (A : Type) : Type := World -> Outcome A * World.

Definition ret {A} (a : A) : M A := fun w => (Ret a, w).
Definition fail {A} (e : error) : M A := fun w => (Fail e, w).
Definition panic {A} (msg : string) : M A := fun w => (Panic msg, w).
Definition lift {A} (c : Outcome A) : M A := fun w => (c, w).

Definition bind {A B} (c : M A) (k : A -> M B) : M B :=
  fun w =>
    match c w with
    | (Ret a, w1) => k a w1
    | (Fail e, w1) => (Fail e, w1)
    | (Panic m, w1) => (Panic m, w1)
    end.

Notation "'let*' x ':=' c 'in' k" := (bind c (fun x => k))
  (at level 10, x pattern, c at level 100, k at level 200).
Notation "'let?' x ':=' c 'in' k" := (obind c (fun x => k))
  (at level 10, x pattern, c at level 100, k at level 200).

(** [defer d] followed by [body]: the deferred call runs when [body] is
    left, whether by return or by panic; what it returns is discarded. *)
Definition with_defer {A B} (d : M B) (body : M A) : M A :=
  fun w =>
    let (r, w1) := body w in
    match d w1 with
    | (Panic m, w2) => (Panic m, w2)
    | (_, w2) => (r, w2)
    end.

Definition getHeap : M Heap := fun w => (Ret (heap w), w).

(** Run a kernel on the storage and record the invocation. *)
Definition invoke {A} (c : KernelCall) (k : Heap -> (error + A) * Heap) : M (error + A) :=
  fun w =>
    let (r, h) := k (heap w) in
    (Ret r, logCall c (setHeap h w)).

(* ================================================================= *)
(** ** Methods of values *)

Definition TensorImpl_Dtype (i : TensorImpl) : Dtype :=
  match i with
  | tf64_Tensor => Float64
  | tf32_Tensor => Float32
  | ti_Tensor => Int
  | tb_Tensor => Bool
  end.

(** [v.Dtype()] *)
Definition Value_Dtype (x : Value) : Outcome Dtype :=
  match x with
  | VNil => Panic nilPanic
  | VScalar s => Ret (s_t s)
  | VTensor T => Ret (TensorImpl_Dtype (impl T))
  | VOther dt _ => Ret dt
  end.

(** [v.Type()]: a scalar's type is its dtype, a tensor's type records its
    number of dimensions and element dtype. *)
Definition Value_Type (x : Value) : M Ty :=
  match x with
  | VNil => panic nilPanic
  | VScalar s => ret (TyDtype (s_t s))
  | VTensor T =>
      let* h := getHeap in
      match h !! addr T with
      | Some o => ret (TyTensor (Z.of_nat (length (v_shape (t_view o))))
                                (TyDtype (TensorImpl_Dtype (impl T))))
      | None => panic nilPanic
      end
  | VOther _ ty => ret ty
  end.

Definition Raw_Dtype (r : Raw) : option Dtype :=
  match r with
  | RNil => None
  | RF64 _ => Some Float64
  | RF32 _ => Some Float32
  | RBool _ => Some Bool
  | RInt _ => Some Int
  end.

(** Modelled from the spec: [anyToValue] wraps a primitive as a [Scalar] of
    the matching dtype (a Go [bool] becomes a boolean-typed value) and a
    tensor as a [Tensor] value; anything else is not handled. *)
Definition anyToValue (r : Any) : Outcome Value :=
  match r with
  | AnyRaw x =>
      match Raw_Dtype x with
      | Some d => Ret (VScalar (mkScalar x d))
      | None => Fail (NewError NotYetImplemented (Lit "value %v of %T not yet handled"))
      end
  | AnyTensor T => Ret (VTensor T)
  end.

(** Modelled from the spec: [checkArity] rejects an operand count other than
    the operation's arity. *)
Definition checkArity (arity : nat) (inputs : nat) : Outcome unit :=
  if bool_decide (inputs = arity) then Ret tt
  else Fail (NewError GraphError (Lit "%v has an arity of %d. Got %d instead")).

(* ================================================================= *)
(** ** External collaborators *)

(** [math.Pow] of the Go standard library, on binary64 numbers. *)
Class MathLib := { math_Pow : spec_float -> spec_float -> spec_float }.

Definition to_float64 (x : spec_float) : spec_float :=
  match x with
  | S754_finite s m e => binary_round prec64 emax64 s m e
  | _ => x
  end.

(** An elementwise kernel of the tensor packages: operands are tensors or
    bare numbers; it may write to the storage. *)
Definition ElemKernel_t : Type :=
  Any -> Any -> list FuncOpt -> Heap -> (error + Any) * Heap.

Definition LinAlgKernel_t : Type :=
  Tensor -> Tensor -> list FuncOpt -> Heap -> (error + Tensor) * Heap.

(** The tensor packages.  The four registries map a kind to its kernel (or
    to nil); [Tensor_T] is the transposition of a view, which either fails
    and leaves the view alone or yields the new view. *)
Class TensorLib := {
  tf64BinOps : BinaryOperatorType -> option ElemKernel_t;
  tf64CmpOps : BinaryOperatorType -> option ElemKernel_t;
  tf32BinOps : BinaryOperatorType -> option ElemKernel_t;
  tf32CmpOps : BinaryOperatorType -> option ElemKernel_t;
  Tensor_Materialize : Tensor -> Heap -> Tensor * Heap;
  Tensor_T : View -> error + View;
  tensor_MatMul : LinAlgKernel_t;
  tensor_MatVecMul : LinAlgKernel_t;
  tensor_Inner : Tensor -> Tensor -> Heap -> (error + Tensor) * Heap;
  tensor_Outer : LinAlgKernel_t;
  Tensor_ScalarValue : Tensor -> Heap -> Raw;
  Tensor_Apply : Tensor -> (spec_float -> spec_float) -> list FuncOpt ->
                 Heap -> (error + Tensor) * Heap;
  tensor_Sum : Tensor -> Heap -> (error + Tensor) * Heap;
  returnTensor : Tensor -> Heap -> Heap
}.

(* ================================================================= *)
(** ** Scalar operator ([scalarBinOp]) *)

Record scalarBinOp := mkScalarBinOp { sb_type : BinaryOperatorType; sb_t : Dtype }.

(** [x.(float64)], [x.(float32)] and [x.(bool)] on an [interface{}] *)
Definition assert_float64 (x : Raw) : Outcome spec_float :=
  match x with RF64 f => Ret f | _ => Panic typeAssertPanic end.
Definition assert_float32 (x : Raw) : Outcome spec_float :=
  match x with RF32 f => Ret f | _ => Panic typeAssertPanic end.
Definition assert_bool (x : Raw) : Outcome bool :=
  match x with RBool b => Ret b | _ => Panic typeAssertPanic end.

Section ScalarOperator.
Context `{MathLib}.

(** The inner switch of the [Float64] case: the pair [(r, err)]. *)
Definition scalarBinOp_Float64 (b : BinaryOperatorType) (af bf : spec_float)
  : Raw * option error :=
  match b with
  | addOpType => (RF64 (SFadd prec64 emax64 af bf), None)
  | subOpType => (RF64 (SFsub prec64 emax64 af bf), None)
  | mulOpType => (RF64 (SFmul prec64 emax64 af bf), None)
  | divOpType => (RF64 (SFdiv prec64 emax64 af bf), None)
  | powOpType => (RF64 (math_Pow af bf), None)
  | ltOpType => (RBool (SFltb af bf), None)
  | gtOpType => (RBool (SFltb bf af), None)
  | lteOpType => (RBool (SFleb af bf), None)
  | gteOpType => (RBool (SFleb bf af), None)
  | eqOpType => (RBool (SFeqb af bf), None)
  | neOpType => (RBool (negb (SFeqb af bf)), None)
  | _ => (RNil, Some (errors_Errorf nyiFail))
  end.

(** The inner switch of the [Float32] case. *)
Definition scalarBinOp_Float32 (b : BinaryOperatorType) (af bf : spec_float)
  : Raw * option error :=
  match b with
  | addOpType => (RF32 (SFadd prec32 emax32 af bf), None)
  | subOpType => (RF32 (SFsub prec32 emax32 af bf), None)
  | mulOpType => (RF32 (SFmul prec32 emax32 af bf), None)
  | divOpType => (RF32 (SFdiv prec32 emax32 af bf), None)
  | powOpType => (RF32 (to_float32 (math_Pow (to_float64 af) (to_float64 bf))), None)
  | ltOpType => (RBool (SFltb af bf), None)
  | gtOpType => (RBool (SFltb bf af), None)
  | lteOpType => (RBool (SFleb af bf), None)
  | gteOpType => (RBool (SFleb bf af), None)
  | eqOpType => (RBool (SFeqb af bf), None)
  | neOpType => (RBool (negb (SFeqb af bf)), None)
  | _ => (RNil, Some (errors_Errorf (Lit "scalarBinOp.Do() - Float32")))
  end.

(** [if same && !o.isArith() { if r.(bool) { r = one } else { r = zero } }] *)
Definition castSame (same : bool) (b : BinaryOperatorType) (one zero : Raw) (r : Raw)
  : Outcome Raw :=
  if same && negb (isArith b) then
    let? c := assert_bool r in
    Ret (if c then one else zero)
  else Ret r.

Definition scalarBinOp_Do (o : scalarBinOp) (same : bool) (vals : list Value)
  : Outcome Value :=
  if negb (bool_decide (length vals = 2%nat)) then
    Fail (NewError GraphError
            (Lit "Executing a binary operation expects 2 inputs. Got %d instead"))
  else
    let? v0 := index vals 0 in
    let? v1 := index vals 1 in
    match v0, v1 with
    | VScalar a, VScalar b =>
        if negb (bool_decide (s_t a = sb_t o)) then
          Fail (errors_Errorf (Lit "Type mismatch for a. Expected %v. Got %v instead"))
        else if negb (bool_decide (s_t b = sb_t o)) then
          Fail (errors_Errorf
                  (Lit "Type mismatch for b. Expected %v. Got %v instead | %v(%T) |%v(%T)"))
        else
          let? p :=
            match sb_t o with
            | Float64 =>
                let? af := assert_float64 (s_v a) in
                let? bf := assert_float64 (s_v b) in
                let '(r, err) := scalarBinOp_Float64 (sb_type o) af bf in
                let? r := castSame same (sb_type o)
                            (RF64 (float64_of_Z 1)) (RF64 (float64_of_Z 0)) r in
                Ret (r, err)
            | Float32 =>
                let? af := assert_float32 (s_v a) in
                let? bf := assert_float32 (s_v b) in
                let '(r, err) := scalarBinOp_Float32 (sb_type o) af bf in
                let? r := castSame same (sb_type o)
                            (RF32 (float32_of_Z 1)) (RF32 (float32_of_Z 0)) r in
                Ret (r, err)
            | _ => Ret (RNil, Some (errors_Errorf nyiFail))
            end in
          match p with
          | (_, Some e) => Fail e
          | (r, None) => anyToValue (AnyRaw r)
          end
    | _, _ =>
        Fail (errors_Errorf
                (Lit "Expected both inputs to binOp %v to be Scalar. Got %v (%T) and %#v(%T) instead"))
    end.
End ScalarOperator.

(* ================================================================= *)
(** ** Tensor operator ([tBinOp]) *)

Record tBinOp := mkTBinOp { tb_type : BinaryOperatorType; tensorLeft : bool }.

(** The idiom [if x, err = c; err != nil { return errors.Wrap(err, f) }]. *)
Definition wrapping {A} (f : Format) (c : M A) : M A :=
  fun w =>
    match c w with
    | (Fail e, w1) => (Fail (errors_Wrap e f), w1)
    | r => r
    end.

(** A kernel's [(r, err)] result, with [err != nil] wrapped and returned. *)
Definition orWrap {A} (f : Format) (res : error + A) : M A :=
  match res with
  | inl e => fail (errors_Wrap e f)
  | inr r => ret r
  end.

Section TensorOperator.
Context `{TensorLib}.

(** [t.Tensor.Materialize()] *)
Definition Materialize (T : Tensor) : M Tensor :=
  fun w =>
    let (T', h) := Tensor_Materialize T (heap w) in
    (Ret T', setHeap h w).

(** Look up the kernel of [b] in a registry and call it. *)
Definition callRegistry (reg : BinaryOperatorType -> option ElemKernel_t)
    (d : Dtype) (b : BinaryOperatorType) (x y : Any) (opts : list FuncOpt) : M Any :=
  match reg b with
  | None => fail (errors_Errorf (Lit "nil function returned for %v"))
  | Some fn =>
      let* res := invoke (mkCall (ElemKernel d b) x y opts) (fn x y opts) in
      orWrap (Lit "Calling the function failed") res
  end.

Definition tBinOp_do (o : tBinOp) (vals : list Value) (opts : list FuncOpt) : M Value :=
  if negb (bool_decide (length vals = 2%nat)) then
    fail (NewError GraphError
            (Lit "Executing a binary operation expects 2 inputs. Got %d instead"))
  else
    let* v0 := lift (index vals 0) in
    let* v1 := lift (index vals 1) in
    let* d0 := lift (Value_Dtype v0) in
    let* d1 := lift (Value_Dtype v1) in
    if negb (bool_decide (d0 = d1)) then
      fail (errors_Errorf (Lit "Dtype mismatch for bin op: %v and %v"))
    else
      let* ab :=
        if tensorLeft o then
          match v0 with
          | VTensor T =>
              let* a := Materialize T in
              match v1 with
              | VScalar other => ret (AnyTensor a, AnyRaw (s_v other))
              | VTensor other =>
                  let* b := Materialize other in ret (AnyTensor a, AnyTensor b)
              | _ => fail (errors_Errorf nyiFail)
              end
          | _ =>
              fail (errors_Errorf
                      (Lit "Expected left value to be Tensor. Got %v of %T instead"))
          end
        else
          match v1 with
          | VTensor T =>
              let* b := Materialize T in
              match v0 with
              | VScalar other => ret (AnyRaw (s_v other), AnyTensor b)
              | VTensor other =>
                  let* a := Materialize other in ret (AnyTensor a, AnyTensor b)
              | _ => fail (errors_Errorf nyiFail)
              end
          | _ =>
              fail (errors_Errorf
                      (Lit "Expected right value to be Tensor. Got %v of %T instead"))
          end in
      let* r :=
        match d0 with
        | Float64 =>
            if isArith (tb_type o)
            then callRegistry tf64BinOps Float64 (tb_type o) (fst ab) (snd ab) opts
            else callRegistry tf64CmpOps Float64 (tb_type o) (fst ab) (snd ab) opts
        | Float32 =>
            if isArith (tb_type o)
            then callRegistry tf32BinOps Float32 (tb_type o) (fst ab) (snd ab) opts
            else callRegistry tf32CmpOps Float32 (tb_type o) (fst ab) (snd ab) opts
        | _ => fail (errors_Errorf nyiFail)
        end in
      lift (anyToValue r).

Definition tBinOp_Do (o : tBinOp) (same : bool) (inputs : list Value) : M Value :=
  if same then tBinOp_do o inputs [AsSameType] else tBinOp_do o inputs [].

Definition tBinOp_UnsafeDo (o : tBinOp) (inputs : list Value) : M Value :=
  tBinOp_do o inputs [UseUnsafe].

Definition tBinOp_UsePreallocDo (o : tBinOp) (x : Value) (inputs : list Value) : M Value :=
  match x with
  | VTensor T => tBinOp_do o inputs [WithReuse T]
  | _ => fail (errors_Errorf (Lit "Expected Tensor as preallocated value. Got %v of %T instead"))
  end.
End TensorOperator.

(* ================================================================= *)
(** ** Elementwise binary operation ([elemBinOp]) *)

(** The two implementations of the binary-operator interface. *)
Inductive BinaryOperator :=
| SBO (o : scalarBinOp)
| TBO (o : tBinOp).

Definition binOpType (b : BinaryOperator) : BinaryOperatorType :=
  match b with
  | SBO o => sb_type o
  | TBO o => tb_type o
  end.

Record elemBinOp := mkElemBinOp {
  binOp : BinaryOperator;
  arg0 : Ty;
  arg1 : Ty;
  retSame : bool
}.

Definition newEBOByType (ot : BinaryOperatorType) (at_ bt : Ty) : Outcome elemBinOp :=
  let? b :=
    match at_ with
    | TyDtype att =>
        match bt with
        | TyDtype _ => Ret (SBO (mkScalarBinOp ot att))
        | TyTensor _ _ => Ret (TBO (mkTBinOp ot false))
        | _ => Panic "Unsupported type of b"
        end
    | TyTensor _ _ => Ret (TBO (mkTBinOp ot true))
    | _ => Panic "Unsupported type of a"
    end in
  Ret (mkElemBinOp b at_ bt false).

Definition elemBinOp_Arity (op : elemBinOp) : nat := 2.

Definition isTensorType (ty : Ty) : bool :=
  match ty with TyTensor _ _ => true | _ => false end.

Definition elemBinOp_ReturnsPtr (op : elemBinOp) : bool :=
  if isTensorType (arg0 op) then true
  else if isTensorType (arg1 op) then true
  else false.

Definition elemBinOp_OverwritesInput (op : elemBinOp) : Z :=
  if isTensorType (arg0 op) then 0
  else if isTensorType (arg1 op) then 1
  else -1.

Section ElementwiseOperation.
Context `{MathLib} `{TensorLib}.

Definition elemBinOp_Do (op : elemBinOp) (values : list Value) : M Value :=
  match binOp op with
  | SBO o => lift (scalarBinOp_Do o (retSame op) values)
  | TBO o => tBinOp_Do o (retSame op) values
  end.

Definition elemBinOp_UsePreallocDo (op : elemBinOp) (prealloc : Value)
    (inputs : list Value) : M Value :=
  if negb (elemBinOp_ReturnsPtr op) then elemBinOp_Do op inputs
  else
    match binOp op with
    | TBO pd => tBinOp_UsePreallocDo pd prealloc inputs
    | SBO _ => elemBinOp_Do op inputs
    end.

Definition elemBinOp_UnsafeDo (op : elemBinOp) (inputs : list Value) : M Value :=
  if negb (elemBinOp_ReturnsPtr op) then elemBinOp_Do op inputs
  else
    match binOp op with
    | TBO ud => tBinOp_UnsafeDo ud inputs
    | SBO _ => elemBinOp_Do op inputs
    end.

(** The part shared by every [IncrDo] for an accumulator that cannot be
    written in place: add [retVal] to [incr] with an unsafe [add], and hand
    the sum back inside [noIncrErr]. *)
Definition addAndReroute (incr retVal : Value) : M unit :=
  let* ity := Value_Type incr in
  let* rty := Value_Type retVal in
  let* add := lift (newEBOByType addOpType ity rty) in
  let* retVal := wrapping unsafeDoFail (elemBinOp_UnsafeDo add [incr; retVal]) in
  fail (noIncrErr retVal).

Definition tBinOp_IncrDo (o : tBinOp) (incr : Value) (inputs : list Value) : M unit :=
  match incr with
  | VTensor T =>
      let* _ := tBinOp_do o inputs [WithIncr T] in
      ret tt
  | _ =>
      let* retVal := wrapping doFail (tBinOp_do o inputs []) in
      addAndReroute incr retVal
  end.

Definition elemBinOp_IncrDo (op : elemBinOp) (incr : Value) (inputs : list Value) : M unit :=
  if negb (elemBinOp_ReturnsPtr op) then
    let* retVal := wrapping doFail (elemBinOp_Do op inputs) in
    addAndReroute incr retVal
  else
    match binOp op with
    | TBO id => tBinOp_IncrDo id incr inputs
    | SBO _ => panic "unreachable"
    end.
End ElementwiseOperation.

(** A [DimSizer] argument: nil, a [types.Shape], or another implementation. *)
Inductive DimSizer := DSNil | DSShape (s : Shape) | DSOther.

Definition isNilDimSizer (d : DimSizer) : bool :=
  match d with DSNil => true | _ => false end.

(** [d.(types.Shape)] *)
Definition assert_Shape (d : DimSizer) : Outcome Shape :=
  match d with DSShape s => Ret s | _ => Panic typeAssertPanic end.

Definition elemBinOp_InferShape (op : elemBinOp) (inputs : list DimSizer) : Outcome Shape :=
  let? i0 := index inputs 0 in
  if isNilDimSizer i0 then Fail (errors_Errorf nyiFail)
  else
    let? i1 := index inputs 1 in
    if isNilDimSizer i1 then Fail (errors_Errorf nyiFail)
    else
      let? x := assert_Shape i0 in
      let? y := assert_Shape i1 in
      if Shape_IsScalar x && Shape_IsScalar y then Ret scalarShape
      else if Shape_IsScalar x && negb (Shape_IsScalar y) then Ret y
      else if negb (Shape_IsScalar x) && Shape_IsScalar y then Ret x
      else if negb (Shape_IsScalar x) && negb (Shape_IsScalar y) then
        if negb (Shape_Eq x y)
        then Ret x   (* the branch taken on unequal shapes is empty *)
        else Ret x
      else Ret [].

Definition elemBinOp_DiffWRT (op : elemBinOp) (inputs : Z) : Outcome (list bool) :=
  if negb (inputs =? 2) then Panic "binOpFail"
  else
    let b := binOpType (binOp op) in
    if 11 <=? binOpByte b then Panic "Unsupported unary operator is not differentiable"
    else if isArith b then Ret [true; true]
    else Ret [false; false].

(** *** Structural hash *)

(** The bytes of a string. *)
Fixpoint bytesOf (s : string) : list Z :=
  match s with
  | EmptyString => []
  | String a rest => Z.of_N (Ascii.N_of_ascii a) :: bytesOf rest
  end.

(** [fnv.New32a()]: the 32-bit FNV-1a digest of a byte stream. *)
Definition fnv32a_offset : Z := 2166136261.
Definition fnv32a_prime : Z := 16777619.

Definition fnv32a_step (h : Z) (byte : Z) : Z :=
  (Z.lxor h byte * fnv32a_prime) mod 2 ^ 32.

Definition fnv32a (bytes : list Z) : Z := fold_left fnv32a_step bytes fnv32a_offset.

(** The [%v] rendering of an operand type, defined with the types. *)
Class TypeFmt := { Type_String : Ty -> string }.

Section Hashing.
Context `{TypeFmt}.

(** The bytes [WriteHash] feeds to the digest: the kind as one byte, then
    the text ["%v,%v"] of the two operand types. *)
Definition elemBinOp_WriteHash (op : elemBinOp) : list Z :=
  [binOpByte (binOpType (binOp op))] ++
  bytesOf (Type_String (arg0 op) ++ "," ++ Type_String (arg1 op)).

Definition elemBinOp_Hashcode (op : elemBinOp) : Z :=
  fnv32a (elemBinOp_WriteHash op).
End Hashing.

(* ================================================================= *)
(** ** Elementwise unary operation ([elemUnaryOp]) *)

(** The implementations of the unary-operator interface: a function on
    [float32], a function on [float64], or nothing (a missing table entry). *)
Inductive UnaryOperator :=
| sf32UnaryOperator (f : spec_float -> spec_float)
| sf64UnaryOperator (f : spec_float -> spec_float)
| nilUnaryOperator.

Record elemUnaryOp := mkElemUnaryOp {
  unOp : UnaryOperator;
  argTensor : bool;
  numericResult : bool
}.

(** The type assertions to a pointer to [sf64UnaryOperator] and to
    [sf32UnaryOperator]. *)
Definition assert_sf64 (u : UnaryOperator) : Outcome (spec_float -> spec_float) :=
  match u with sf64UnaryOperator f => Ret f | _ => Panic typeAssertPanic end.
Definition assert_sf32 (u : UnaryOperator) : Outcome (spec_float -> spec_float) :=
  match u with sf32UnaryOperator f => Ret f | _ => Panic typeAssertPanic end.

Section UnaryOperation.
Context `{TensorLib}.

Definition elemUnaryOp_do (op : elemUnaryOp) (inputs : list Value) (opts : list FuncOpt)
  : M Value :=
  let* _ := lift (checkArity 1 (length inputs)) in
  let* a := lift (index inputs 0) in
  match a with
  | VTensor T =>
      match impl T with
      | tf64_Tensor =>
          let* fn := lift (assert_sf64 (unOp op)) in
          let* res := invoke (mkCall ApplyKernel (AnyTensor T) (AnyRaw RNil) opts)
                             (Tensor_Apply T fn opts) in
          let* t := orWrap applyFail res in
          ret (VTensor t)
      | tf32_Tensor =>
          let* fn := lift (assert_sf32 (unOp op)) in
          let* res := invoke (mkCall ApplyKernel (AnyTensor T) (AnyRaw RNil) opts)
                             (Tensor_Apply T fn opts) in
          let* t := orWrap applyFail res in
          ret (VTensor t)
      | _ => fail (errors_Errorf nyiFail)
      end
  | VScalar s =>
      match s_t s with
      | Float32 =>
          let* f := lift (assert_float32 (s_v s)) in
          let* opFn := lift (assert_sf32 (unOp op)) in
          ret (VScalar (mkScalar (RF32 (opFn f)) Float32))
      | Float64 =>
          let* f := lift (assert_float64 (s_v s)) in
          let* opFn := lift (assert_sf64 (unOp op)) in
          ret (VScalar (mkScalar (RF64 (opFn f)) Float64))
      | _ => fail (errors_Errorf nyiFail)
      end
  | _ => ret VNil   (* no case of the type switch applies: [retVal] and [err] stay nil *)
  end.

Definition elemUnaryOp_Do (op : elemUnaryOp) (inputs : list Value) : M Value :=
  elemUnaryOp_do op inputs [].

Definition elemUnaryOp_UnsafeDo (op : elemUnaryOp) (inputs : list Value) : M Value :=
  elemUnaryOp_do op inputs [UseUnsafe].
End UnaryOperation.

(* ================================================================= *)
(** ** Linear-algebra operation ([linAlgBinOp]) *)

Record linAlgBinOp := mkLinAlgBinOp {
  la_op : LinAlgOperator;
  transA : bool;
  transB : bool
}.

(** [x.(Tensor)] *)
Definition assert_Tensor (x : Value) : Outcome Tensor :=
  match x with VTensor T => Ret T | _ => Panic typeAssertPanic end.

Section LinearAlgebra.
Context `{MathLib} `{TensorLib}.

(** [t.Tensor.T()]: transpose the view of the tensor behind the pointer.
    The result is the returned error, if any. *)
Definition T_call (T : Tensor) : M (option error) :=
  fun w =>
    match heap w !! addr T with
    | None => (Panic nilPanic, w)
    | Some o =>
        match Tensor_T (t_view o) with
        | inl e => (Ret (Some e), w)
        | inr v' =>
            (Ret None, setHeap (<[addr T := mkTensorObj v' (t_data o)]> (heap w)) w)
        end
    end.

(** The [switch] that dispatches to the primitive: the pair [(r, err)].
    [tensor.Inner] returns a nil tensor with its error, and the call of
    [ScalarValue] on it comes before the error is looked at. *)
Definition linAlgBinOp_dispatch (op : linAlgBinOp) (a b : Tensor) (opts : list FuncOpt)
  : M (error + Any) :=
  match la_op op with
  | matMulOperator =>
      let* res := invoke (mkCall (LinAlgKernel matMulOperator) (AnyTensor a) (AnyTensor b) opts)
                         (tensor_MatMul a b opts) in
      ret (sum_map id AnyTensor res)
  | matVecMulOperator =>
      let* res := invoke (mkCall (LinAlgKernel matVecMulOperator) (AnyTensor a) (AnyTensor b) opts)
                         (tensor_MatVecMul a b opts) in
      ret (sum_map id AnyTensor res)
  | vecDotOperator =>
      let* res := invoke (mkCall (LinAlgKernel vecDotOperator) (AnyTensor a) (AnyTensor b) [])
                         (tensor_Inner a b) in
      match res with
      | inl _ => panic nilPanic
      | inr r =>
          let* h := getHeap in
          ret (inr (AnyRaw (Tensor_ScalarValue r h)))
      end
  | outerProdOperator =>
      let* res := invoke (mkCall (LinAlgKernel outerProdOperator) (AnyTensor a) (AnyTensor b) opts)
                         (tensor_Outer a b opts) in
      ret (sum_map id AnyTensor res)
  | invalidLinAlgOperator => ret (inr (AnyRaw RNil))
  end.

(** The block
    [if flag { if err = t.T(); err != nil { return nil, errors.Wrap(err, tFail) };
    defer t.T() }], followed by the rest of the function body. *)
Definition transposedFor {A} (flag : bool) (T : Tensor) (rest : M A) : M A :=
  if flag then
    let* err := T_call T in
    match err with
    | Some e => fail (errors_Wrap e tFail)
    | None => with_defer (T_call T) rest
    end
  else rest.

Definition linAlgBinOp_do (op : linAlgBinOp) (inputs : list Value) (opts : list FuncOpt)
  : M Value :=
  let* _ := lift (checkArity 2 (length inputs)) in
  let* i0 := lift (index inputs 0) in
  let* i1 := lift (index inputs 1) in
  let* a := lift (assert_Tensor i0) in
  let* b := lift (assert_Tensor i1) in
  transposedFor (transA op) a (
  transposedFor (transB op) b (
    let* res := linAlgBinOp_dispatch op a b opts in
    match res with
    | inr r => lift (anyToValue r)
    | inl e => fail (errors_Wrap e (Lit "Failed to carry out operation"))
    end)).

Definition linAlgBinOp_Do (op : linAlgBinOp) (inputs : list Value) : M Value :=
  linAlgBinOp_do op inputs [].

Definition linAlgBinOp_IncrDo (op : linAlgBinOp) (incr : Value) (inputs : list Value)
  : M unit :=
  match incr with
  | VTensor T =>
      let* _ := linAlgBinOp_do op inputs [WithIncr T] in
      ret tt
  | _ =>
      let* retVal := wrapping doFail (linAlgBinOp_do op inputs []) in
      addAndReroute incr retVal
  end.

Definition linAlgBinOp_UsePreallocDo (op : linAlgBinOp) (prealloc : Value)
    (inputs : list Value) : M Value :=
  match prealloc with
  | VTensor T => linAlgBinOp_do op inputs [WithReuse T]
  | _ => fail (errors_Errorf (Lit "Expected Tensor as preallocated value. Got %v of %T instead"))
  end.
End LinearAlgebra.

(* ================================================================= *)
(** ** Graph nodes *)

(** The group a node is tagged with; [gradClust] marks gradient nodes. *)
Inductive Cluster := exprGraphClust | gradClust.

(** What a node is bound to: nothing, a plain value, or (a pointer to) a
    dual value. *)
Inductive Bound := BNone | BValue (x : Value) | BDual (p : positive).

(** Modelled from the spec: the part of a graph node the operators consume. *)
Record Node := mkNode {
  n_id : positive;
  n_t : Ty;
  n_shape : Shape;
  n_group : Cluster;
  boundTo : Bound
}.

Definition Nodes := list Node.

Definition Node_Shape (n : Node) : Shape := n_shape n.
Definition Node_IsScalar (n : Node) : bool := Shape_IsScalar (n_shape n).
Definition Node_IsVector (n : Node) : bool := Shape_IsVector (n_shape n).
Definition Node_IsRowVec (n : Node) : bool := Shape_IsRowVec (n_shape n).
Definition Node_IsColVec (n : Node) : bool := Shape_IsColVec (n_shape n).

Definition setGroup (g : Cluster) (n : Node) : Node :=
  mkNode (n_id n) (n_t n) (n_shape n) g (boundTo n).

(** [NewBroadcastPattern(leftAxes, rightAxes)] *)
Record BroadcastPattern := mkBroadcastPattern { bc_left : list Z; bc_right : list Z }.

(** The graph-building functions of the package, which create the node of
    an operation applied to nodes. *)
Class GraphBuilder := {
  Neg : Node -> Outcome Node;
  HadamardProd : Node -> Node -> Outcome Node;
  HadamardDiv : Node -> Node -> Outcome Node;
  Sum : Node -> Outcome Node;
  Broadcast : BinaryOperatorType -> Node -> Node -> BroadcastPattern -> Outcome Node
}.

(* ================================================================= *)
(** ** Reduction operations ([maxOp], [sumOp]) *)

Record maxOp := mkMaxOp { max_along : list Z; max_d : Z }.

Definition maxOp_inferShape (op : maxOp) (ty : Ty) (inputs : list Node) : Outcome Shape :=
  Ret scalarShape.

Definition maxOp_DiffWRT (op : maxOp) (i : Z) : list bool := [true].

Definition maxOp_Do (op : maxOp) (inputs : list Value) : Outcome Value :=
  if negb (bool_decide (length inputs = 1%nat)) then
    Fail (NewError GraphError (Lit "Expected only one input for maxop. Got %d instead"))
  else Fail (NewError NotYetImplemented (Lit "maxOp")).

Section MaxDifferentiation.
Context `{GraphBuilder}.

(** The axes of the input that are listed in [along], as bytes. *)
Definition maxOp_leftAxes (op : maxOp) (opDim : nat) : list Z :=
  (fun i => i mod 256) <$>
    filter (fun i => i ∈ max_along op) (Z.of_nat <$> seq 0 opDim).

(** [retVal] is the named result, a nil slice that is never allocated; the
    last statement assigns to its element 0. *)
Definition maxOp_SymDiff (op : maxOp) (inputs : Nodes) (output gradNode : Node)
  : Outcome Nodes :=
  if negb (bool_decide (length inputs = 1%nat)) then
    Fail (NewError GraphError (Lit "Expect at least 1 input. Got %d instead"))
  else
    let? t := index inputs 0 in
    let opDim := length (Node_Shape t) in
    let leftAxes := maxOp_leftAxes op opDim in
    let bcpat := mkBroadcastPattern leftAxes [] in
    match Broadcast eqOpType output t bcpat with
    | Panic m => Panic m
    | Fail e => Fail (errors_Wrap e operationError)
    | Ret eq =>
        let retVal : Nodes := [] in
        match Broadcast mulOpType gradNode eq bcpat with
        | Panic m => Panic m
        | Ret n =>
            let? retVal := setIndex retVal 0 n in
            Ret retVal
        | Fail e =>
            let? _ := setIndex (@nil (option Node)) 0 None in
            Fail (errors_Wrap e operationError)
        end
    end.
End MaxDifferentiation.

Record sumOp := mkSumOp { sum_along : list Z; sum_d : Z; inputShape : Shape }.

(** The loop [for _, a := range op.along] of [sumOp.inferShape]. *)
Fixpoint sumOp_collapse (along : list Z) (shape : Shape) : Outcome Shape :=
  match along with
  | [] => Ret shape
  | a :: rest =>
      if Z.of_nat (length shape) <=? a then
        Fail (errors_Errorf
                (Lit "Axis %d is greater or equal to the length of the shape %v"))
      else
        let? shape := setIndex shape a 1 in
        sumOp_collapse rest shape
  end.

Definition sumOp_inferShape (op : sumOp) (ty : Ty) (inputs : Nodes) : Outcome Shape :=
  if negb (bool_decide (length inputs = 1%nat)) then
    Fail (NewError GraphError (Lit "sumOp requires only one input"))
  else
    let? in_ := index inputs 0 in
    if Node_IsScalar in_ then Ret scalarShape
    else if Node_IsVector in_ && negb (Node_IsRowVec in_) && negb (Node_IsColVec in_) then
      if (1 <? length (sum_along op))%nat
         || (bool_decide (length (sum_along op) = 1%nat)
             && negb (bool_decide (sum_along op !! 0%nat = Some 0)))
      then Fail (errors_Errorf (Lit "Shape mismatch: along is %v. Shape is %v"))
      else Ret scalarShape
    else
      let shape := Node_Shape in_ in
      if (length shape <? length (sum_along op))%nat then
        Fail (errors_Errorf (Lit "Shape mismatch: %v and %v"))
      else
        let '(monotonic, incr1) := IsMonotonicInts (sum_along op) in
        if monotonic && incr1 && bool_decide (length (sum_along op) = length shape)
        then Ret scalarShape
        else
          let? shape := sumOp_collapse (sum_along op) shape in
          if Shape_Eq oneone shape then Ret scalarShape else Ret shape.

(** The declared result type of a sum, from [sumOp.Type]: the number of
    dimensions of the result ([0] for a scalar). *)
Definition sumOp_Type_resultDims (op : sumOp) : Z :=
  if (sum_d op =? 1) || bool_decide (length (sum_along op) = 0%nat)
     || (Z.of_nat (length (sum_along op)) =? sum_d op)
  then 0
  else sum_d op - 1.

(* ================================================================= *)
(** ** Differentiation rules: symbolic expressions *)

Section SymbolicRules.
Context `{GraphBuilder}.

Definition addDiffExpr (x y z gradZ : Node) : Outcome Nodes :=
  Ret [gradZ; gradZ].

Definition subDiffExpr (x y z gradZ : Node) : Outcome Nodes :=
  match Neg gradZ with
  | Panic m => Panic m
  | Ret dzdy => Ret [gradZ; setGroup gradClust dzdy]
  | Fail e => Fail (errors_Wrap e (Lit "Failed to carry Neg()"))
  end.

Definition hadamardProdDiffExpr (x y z gradZ : Node) : Outcome Nodes :=
  match HadamardProd y gradZ with
  | Panic m => Panic m
  | _ =>
      match HadamardProd y gradZ with
      | Panic m => Panic m
      | Ret dzdx =>
          match HadamardProd x gradZ with
          | Panic m => Panic m
          | Fail e => Fail (errors_Wrap e (Lit "Failed to carry HadamardProd()"))
          | Ret dzdy => Ret [setGroup gradClust dzdx; setGroup gradClust dzdy]
          end
      | Fail e => Fail (errors_Wrap e (Lit "Failed to carry HadamardProd()"))
      end
  end.

Definition hadamardDivDiffExpr (x y z gradZ : Node) : Outcome Nodes :=
  match HadamardDiv gradZ y with
  | Panic m => Panic m
  | Fail e => Fail (errors_Wrap e (Lit "Failed to carry HadamardProd()"))
  | Ret dzdx =>
      let dzdx := setGroup gradClust dzdx in
      match HadamardDiv z y with
      | Panic m => Panic m
      | Fail e => Fail (errors_Wrap e (Lit "Failed to carry HadamardProd()"))
      | Ret dzdy =>
          match Neg (setGroup gradClust dzdy) with
          | Panic m => Panic m
          | Fail e => Fail (errors_Wrap e (Lit "Failed to carry Neg()"))
          | Ret dzdy =>
              match HadamardProd (setGroup gradClust dzdy) gradZ with
              | Panic m => Panic m
              | Fail e => Fail (errors_Wrap e (Lit "Failed to carry HadamardProd()"))
              | Ret dzdy => Ret [dzdx; setGroup gradClust dzdy]
              end
          end
      end
  end.

Definition hadamardPowDiffExpr (x y z grad : Node) : Outcome Nodes :=
  Fail (errors_New "hadamardPowDiffExpr not yet implemented").

Definition nondiffBinOpExpr (x y z grad : Node) : Outcome Nodes :=
  Fail (errors_New "Nondifferentiable").

(** Modelled from the spec: the per-kind table of symbolic-derivative
    builders, declared with the operator catalog.  It has one entry per
    kind before the end marker. *)
Definition BinOpDiffExprs (b : BinaryOperatorType)
  : option (Node -> Node -> Node -> Node -> Outcome Nodes) :=
  match b with
  | addOpType => Some addDiffExpr
  | subOpType => Some subDiffExpr
  | mulOpType => Some hadamardProdDiffExpr
  | divOpType => Some hadamardDivDiffExpr
  | powOpType => Some hadamardPowDiffExpr
  | ltOpType | gtOpType | lteOpType | gteOpType | eqOpType | neOpType =>
      Some nondiffBinOpExpr
  | maxBinaryOpType => None
  end.

(** The second loop of [SymDiff]: a gradient that is not scalar-shaped
    for a scalar input is summed. *)
Fixpoint sumScalarGrads (inputs : Nodes) (i : nat) (todo : Nodes) (retVal : Nodes)
  : Outcome Nodes :=
  match todo with
  | [] => Ret retVal
  | grad :: rest =>
      let? input := index inputs i in
      if Node_IsScalar input && negb (Node_IsScalar grad) then
        match Sum grad with
        | Panic m => Panic m
        | Fail e => Fail (errors_Wrap e operationError)
        | Ret s => sumScalarGrads inputs (S i) rest (<[i := s]> retVal)
        end
      else sumScalarGrads inputs (S i) rest retVal
  end.

Definition elemBinOp_SymDiff (op : elemBinOp) (inputs : Nodes) (output gradNode : Node)
  : Outcome Nodes :=
  let? _ := checkArity (elemBinOp_Arity op) (length inputs) in
  let b := binOpType (binOp op) in
  match BinOpDiffExprs b with
  | None => Panic indexPanic
  | Some rule =>
      let? x := index inputs 0 in
      let? y := index inputs 1 in
      match rule x y output gradNode with
      | Panic m => Panic m
      | Fail e => Fail e
      | Ret retVal =>
          let retVal := setGroup gradClust <$> retVal in
          sumScalarGrads inputs 0 retVal retVal
      end
  end.
End SymbolicRules.

(* ================================================================= *)
(** ** Differentiation rules: numeric backward functions *)

(** Modelled from the spec: the closed enumeration of unary kinds. *)
Inductive UnaryOperatorType := negOpType | signOpType | otherUnaryOpType (code : Z).

(** What the rules use of the graph package: pruning of a node's type, the
    dtype of a type, the per-dtype tables of unary operators, and the
    replacement of a dual value's derivative, which reports a mismatch. *)
Class NodeLib := {
  prune : Ty -> Ty;
  dtypeOf : Ty -> error + Dtype;
  sf32UnaryOperators : UnaryOperatorType -> UnaryOperator;
  sf64UnaryOperators : UnaryOperatorType -> UnaryOperator;
  SetDeriv : dualValue -> Value -> dualValue * option error
}.

(** The type assertion of [n.boundTo] to a pointer to [dualValue]. *)
Definition assert_dualValue (n : Node) : Outcome positive :=
  match boundTo n with BDual p => Ret p | _ => Panic typeAssertPanic end.

Definition readDual (p : positive) : M dualValue :=
  fun w =>
    match duals w !! p with
    | Some dv => (Ret dv, w)
    | None => (Panic nilPanic, w)
    end.

(** [dv.d] and [dv.Value] through the pointer *)
Definition deriv (p : positive) : M Value := let* dv := readDual p in ret (dv_d dv).
Definition primal (p : positive) : M Value := let* dv := readDual p in ret (dv_Value dv).

Section NumericRules.
Context `{MathLib} `{TensorLib} `{NodeLib}.

Definition newElemBinOp (ot : BinaryOperatorType) (a b : Node) : Outcome elemBinOp :=
  newEBOByType ot (prune (n_t a)) (prune (n_t b)).

Definition newElemUnaryOp (op : UnaryOperatorType) (a : Node) : Outcome elemUnaryOp :=
  match dtypeOf (n_t a) with
  | inl _ => Panic "dtypeOf"
  | inr dt =>
      let isTensor := isTensorType (n_t a) in
      let operator :=
        match dt with
        | Float32 => sf32UnaryOperators op
        | Float64 => sf64UnaryOperators op
        | _ => nilUnaryOperator
        end in
      Ret (mkElemUnaryOp operator isTensor false)
  end.

(** [dv.SetDeriv(d)] with the returned error dropped. *)
Definition SetDeriv_ignored (p : positive) (d : Value) : M unit :=
  let* dv := readDual p in
  fun w => (Ret tt, setDual p (fst (SetDeriv dv d)) w).

(** [d, err = op.Do(a, b)] for a scalar node, [op.UnsafeDo(a, b)] otherwise,
    then the derivative is replaced when the result is not written in
    place. *)
Definition accumulate (op : elemBinOp) (n : Node) (dv zdv : positive) : M unit :=
  let* a := deriv dv in
  let* b := deriv zdv in
  let* d :=
    if Node_IsScalar n
    then wrapping doFail (elemBinOp_Do op [a; b])
    else wrapping unsafeDoFail (elemBinOp_UnsafeDo op [a; b]) in
  if negb (elemBinOp_ReturnsPtr op) || Node_IsScalar n
  then SetDeriv_ignored dv d
  else ret tt.

Definition addDiff (x y z : Node) : M unit :=
  let* xdv := lift (assert_dualValue x) in
  let* ydv := lift (assert_dualValue y) in
  let* zdv := lift (assert_dualValue z) in
  let* add := lift (newElemBinOp addOpType x z) in
  let* _ := accumulate add x xdv zdv in
  let* add := lift (newElemBinOp addOpType y z) in
  accumulate add y ydv zdv.

Definition subDiff (x y z : Node) : M unit :=
  let* xdv := lift (assert_dualValue x) in
  let* ydv := lift (assert_dualValue y) in
  let* zdv := lift (assert_dualValue z) in
  let* sub := lift (newElemBinOp subOpType y z) in
  let* add := lift (newElemBinOp addOpType x z) in
  let* _ := accumulate sub y ydv zdv in
  accumulate add x xdv zdv.

(** [err = op.IncrDo(...)]; an error that carries a value has the value
    stored as the derivative, any other error is returned. *)
Definition storeRerouted (p : positive) (c : M unit) : M unit :=
  fun w =>
    match c w with
    | (Fail (noIncrErr x), w1) => SetDeriv_ignored p x w1
    | r => r
    end.

Definition hadamardProdDiff (x y z : Node) : M unit :=
  let* xdv := lift (assert_dualValue x) in
  let* ydv := lift (assert_dualValue y) in
  let* zdv := lift (assert_dualValue z) in
  let* zd := deriv zdv in
  let* zdvdType := Value_Type zd in
  let* yv := primal ydv in
  let* yty := Value_Type yv in
  let* mul := lift (newEBOByType mulOpType yty zdvdType) in
  let* xd := deriv xdv in
  let* yv := primal ydv in
  let* zd := deriv zdv in
  let* _ := storeRerouted xdv (elemBinOp_IncrDo mul xd [yv; zd]) in
  let* xv := primal xdv in
  let* xty := Value_Type xv in
  let* mul := lift (newEBOByType mulOpType xty zdvdType) in
  let* yd := deriv ydv in
  let* xv := primal xdv in
  let* zd := deriv zdv in
  storeRerouted ydv (elemBinOp_IncrDo mul yd [xv; zd]).

Definition hadamardDivDiff (x y z : Node) : M unit :=
  let* xdv := lift (assert_dualValue x) in
  let* ydv := lift (assert_dualValue y) in
  let* zdv := lift (assert_dualValue z) in
  let* zd := deriv zdv in
  let* zty := Value_Type zd in
  let* yv := primal ydv in
  let* yty := Value_Type yv in
  let* div := lift (newEBOByType divOpType zty yty) in
  let* xd := deriv xdv in
  let* zd := deriv zdv in
  let* yv := primal ydv in
  let* _ := storeRerouted xdv (elemBinOp_IncrDo div xd [zd; yv]) in
  let* zv := primal zdv in
  let* yv := primal ydv in
  let* d := wrapping doFail (elemBinOp_Do div [zv; yv]) in
  let* neg := lift (newElemUnaryOp negOpType y) in
  let* d := wrapping doFail (elemUnaryOp_Do neg [d]) in
  let* mul := lift (newElemBinOp mulOpType z y) in
  let* yd := deriv ydv in
  let* zd := deriv zdv in
  storeRerouted ydv (elemBinOp_IncrDo mul yd [zd; d]).

Definition hadamardPowDiff (x y z : Node) : M unit :=
  fail (errors_New "hadamardPowDiff not yet implemented").

Definition nondiffBinOp (x y z : Node) : M unit :=
  fail (errors_New "Non differentiable").

(** Modelled from the spec: the per-kind table of numeric backward
    functions, declared with the operator catalog. *)
Definition BinOpDiffFns (b : BinaryOperatorType) : option (Node -> Node -> Node -> M unit) :=
  match b with
  | addOpType => Some addDiff
  | subOpType => Some subDiff
  | mulOpType => Some hadamardProdDiff
  | divOpType => Some hadamardDivDiff
  | powOpType => Some hadamardPowDiff
  | ltOpType | gtOpType | lteOpType | gteOpType | eqOpType | neOpType =>
      Some nondiffBinOp
  | maxBinaryOpType => None
  end.

(** The loop of [DoDiff] that reduces a tensor-shaped derivative of a
    scalar node to a scalar. *)
Fixpoint reduceScalarGrads (inputs : Nodes) : M unit :=
  match inputs with
  | [] => ret tt
  | in_ :: rest =>
      let* indv := lift (assert_dualValue in_) in
      let* d := deriv indv in
      let ok := match d with VScalar _ => true | _ => false end in
      let* _ :=
        if Node_IsScalar in_ && negb ok then
          let* indvdT := lift (assert_Tensor d) in
          let* res := invoke (mkCall SumKernel (AnyTensor indvdT) (AnyRaw RNil) [])
                             (tensor_Sum indvdT) in
          let* t := orWrap operationError res in
          let* h := getHeap in
          let* d := wrapping operationError
                      (lift (anyToValue (AnyRaw (Tensor_ScalarValue t h)))) in
          let* _ := (fun w => (Ret tt, setHeap (returnTensor indvdT (heap w)) w)) in
          SetDeriv_ignored indv d
        else ret tt in
      reduceScalarGrads rest
  end.

Definition elemBinOp_DoDiff (op : elemBinOp) (inputs : Nodes) (output : Node) : M unit :=
  let* _ := lift (checkArity (elemBinOp_Arity op) (length inputs)) in
  let b := binOpType (binOp op) in
  match BinOpDiffFns b with
  | None => panic indexPanic
  | Some rule =>
      let* x := lift (index inputs 0) in
      let* y := lift (index inputs 1) in
      let* _ := wrapping autodiffFail (rule x y output) in
      reduceScalarGrads inputs
  end.
End NumericRules.

(* ================================================================= *)
(** ** A small implementation of the collaborators

    The operators are stated over the interfaces of the tensor and graph
    packages.  This module implements those interfaces on row-major lists,
    so that the operators can be run on concrete inputs. *)

Module Sample.

(** Exponentiation by a power that is a small natural number; any other
    exponent yields NaN. *)
Fixpoint powNat (x : spec_float) (n : nat) : spec_float :=
  match n with
  | O => float64_of_Z 1
  | S n => SFmul prec64 emax64 x (powNat x n)
  end.

Definition Pow (x y : spec_float) : spec_float :=
  match find (fun n => SFeqb y (float64_of_Z (Z.of_nat n))) (seq 0 16) with
  | Some n => powNat x n
  | None => S754_nan
  end.

#[export] Instance mathLib : MathLib := {| math_Pow := Pow |}.

Definition fresh (h : Heap) : positive :=
  Pos.succ (map_fold (fun k _ m => Pos.max k m) 1%positive h).

Definition precOf (i : TensorImpl) : Z * Z :=
  match i with tf32_Tensor => (prec32, emax32) | _ => (prec64, emax64) end.

Definition addOf (i : TensorImpl) := SFadd (fst (precOf i)) (snd (precOf i)).
Definition mulOf (i : TensorImpl) := SFmul (fst (precOf i)) (snd (precOf i)).

(** The numbers of an operand: a tensor's buffer, or one bare number. *)
Definition operand (x : Any) (h : Heap) : option (list spec_float + spec_float) :=
  match x with
  | AnyTensor T => o ← h !! addr T; Some (inl (t_data o))
  | AnyRaw (RF64 f) | AnyRaw (RF32 f) => Some (inr f)
  | _ => None
  end.

Definition firstTensor (a b : Any) : option Tensor :=
  match a, b with
  | AnyTensor T, _ => Some T
  | _, AnyTensor T => Some T
  | _, _ => None
  end.

(** Where a result goes: into the buffer named by an option, over the
    tensor operand in unsafe mode, or into a new tensor. *)
Definition store (i : TensorImpl) (opts : list FuncOpt) (dflt : Tensor) (view : View)
    (out : list spec_float) (h : Heap) : (error + Tensor) * Heap :=
  match opts with
  | WithIncr T :: _ =>
      match h !! addr T with
      | Some o =>
          (inr T, <[addr T := mkTensorObj (t_view o) (zip_with (addOf i) (t_data o) out)]> h)
      | None => (inl (errors_New "no such tensor"), h)
      end
  | WithReuse T :: _ =>
      match h !! addr T with
      | Some o => (inr T, <[addr T := mkTensorObj (t_view o) out]> h)
      | None => (inl (errors_New "no such tensor"), h)
      end
  | UseUnsafe :: _ =>
      match h !! addr dflt with
      | Some o => (inr dflt, <[addr dflt := mkTensorObj (t_view o) out]> h)
      | None => (inl (errors_New "no such tensor"), h)
      end
  | _ =>
      let p := fresh h in
      (inr (mkTensor i p), <[p := mkTensorObj view out]> h)
  end.

Definition elemKernel (i : TensorImpl) (f : spec_float -> spec_float -> spec_float)
  : ElemKernel_t :=
  fun a b opts h =>
    match operand a h, operand b h, firstTensor a b with
    | Some da, Some db, Some T =>
        let out :=
          match da, db with
          | inl xs, inl ys => zip_with f xs ys
          | inl xs, inr y => (fun x => f x y) <$> xs
          | inr x, inl ys => f x <$> ys
          | inr x, inr y => [f x y]
          end in
        match h !! addr T with
        | Some o => prod_map (sum_map id AnyTensor) id (store i opts T (t_view o) out h)
        | None => (inl (errors_New "no such tensor"), h)
        end
    | _, _, _ => (inl (errors_New "unsupported operands"), h)
    end.

Definition arithRegistry (i : TensorImpl) (b : BinaryOperatorType) : option ElemKernel_t :=
  let '(p, e) := precOf i in
  match b with
  | addOpType => Some (elemKernel i (SFadd p e))
  | subOpType => Some (elemKernel i (SFsub p e))
  | mulOpType => Some (elemKernel i (SFmul p e))
  | divOpType => Some (elemKernel i (SFdiv p e))
  | _ => None
  end.

(** Rows of a matrix stored row-major, read through its view. *)
Fixpoint rowsOf (fuel : nat) (cols : nat) (l : list spec_float) : list (list spec_float) :=
  match fuel, l with
  | S fuel, _ :: _ => take cols l :: rowsOf fuel cols (drop cols l)
  | _, _ => []
  end.

Fixpoint transposeRows (cols : nat) (m : list (list spec_float)) : list (list spec_float) :=
  match cols with
  | O => []
  | S c => transposeRows c m ++ [omap (fun r => r !! c) m]
  end.

Definition matrixOf (o : TensorObj) : list (list spec_float) :=
  match v_shape (t_view o) with
  | [r; c] =>
      if v_transposed (t_view o)
      then transposeRows (Z.to_nat r) (rowsOf (length (t_data o)) (Z.to_nat r) (t_data o))
      else rowsOf (length (t_data o)) (Z.to_nat c) (t_data o)
  | _ => (fun x => [x]) <$> t_data o
  end.

Definition dot (i : TensorImpl) (xs ys : list spec_float) : spec_float :=
  foldr (addOf i) (S754_zero false) (zip_with (mulOf i) xs ys).

Definition linAlg (f : TensorImpl -> TensorObj -> TensorObj -> Shape * list spec_float)
  : LinAlgKernel_t :=
  fun a b opts h =>
    match h !! addr a, h !! addr b with
    | Some oa, Some ob =>
        let '(shape, out) := f (impl a) oa ob in
        store (impl a) opts a (mkView shape false) out h
    | _, _ => (inl (errors_New "no such tensor"), h)
    end.

Definition matMul (i : TensorImpl) (oa ob : TensorObj) : Shape * list spec_float :=
  let ma := matrixOf oa in
  let mb := matrixOf ob in
  let n := length (default [] (head mb)) in
  let mbT := transposeRows n mb in
  ([Z.of_nat (length ma); Z.of_nat n],
   concat ((fun row => dot i row <$> mbT) <$> ma)).

Definition matVecMul (i : TensorImpl) (oa ob : TensorObj) : Shape * list spec_float :=
  let ma := matrixOf oa in
  ([Z.of_nat (length ma)], (fun row => dot i row (t_data ob)) <$> ma).

Definition outer (i : TensorImpl) (oa ob : TensorObj) : Shape * list spec_float :=
  ([Z.of_nat (length (t_data oa)); Z.of_nat (length (t_data ob))],
   concat ((fun x => mulOf i x <$> t_data ob) <$> t_data oa)).

Definition inner (i : TensorImpl) (oa ob : TensorObj) : Shape * list spec_float :=
  ([], [dot i (t_data oa) (t_data ob)]).

(** Transposition reverses the shape and flips the flag; a view without
    dimensions cannot be transposed. *)
Definition transposeView (x : View) : error + View :=
  match v_shape x with
  | [] => inl (errors_New "cannot transpose a scalar")
  | s => inr (mkView (reverse s) (negb (v_transposed x)))
  end.

Definition scalarValue (T : Tensor) (h : Heap) : Raw :=
  match h !! addr T with
  | Some o =>
      match t_data o with
      | [x] => match impl T with tf32_Tensor => RF32 x | _ => RF64 x end
      | _ => RNil
      end
  | None => RNil
  end.

Definition apply (T : Tensor) (f : spec_float -> spec_float) (opts : list FuncOpt)
    (h : Heap) : (error + Tensor) * Heap :=
  match h !! addr T with
  | Some o => store (impl T) opts T (t_view o) (f <$> t_data o) h
  | None => (inl (errors_New "no such tensor"), h)
  end.

Definition sumAll (T : Tensor) (h : Heap) : (error + Tensor) * Heap :=
  match h !! addr T with
  | Some o =>
      store (impl T) [] T (mkView [] false)
            [foldr (addOf (impl T)) (S754_zero false) (t_data o)] h
  | None => (inl (errors_New "no such tensor"), h)
  end.

#[export] Instance tensorLib : TensorLib := {|
  tf64BinOps := arithRegistry tf64_Tensor;
  tf64CmpOps := fun _ => None;
  tf32BinOps := arithRegistry tf32_Tensor;
  tf32CmpOps := fun _ => None;
  Tensor_Materialize := fun T h => (T, h);
  Tensor_T := transposeView;
  tensor_MatMul := linAlg matMul;
  tensor_MatVecMul := linAlg matVecMul;
  tensor_Inner := fun a b => linAlg inner a b [];
  tensor_Outer := linAlg outer;
  Tensor_ScalarValue := scalarValue;
  Tensor_Apply := apply;
  tensor_Sum := sumAll;
  returnTensor := fun _ h => h
|}.

(** Types print as a letter per dtype, with the rank in front for a
    tensor. *)
Fixpoint typeString (ty : Ty) : string :=
  match ty with
  | TyDtype Float64 => "float64"
  | TyDtype Float32 => "float32"
  | TyDtype Bool => "bool"
  | TyDtype _ => "int"
  | TyTensor d e => "Tensor " ++ typeString e
  | TyVar n => n
  | TyFun a b => typeString a ++ " -> " ++ typeString b
  end.

#[export] Instance typeFmt : TypeFmt := {| Type_String := typeString |}.

(** Graph building: the node of an operation has the shape of its tensor
    operand. *)
Definition resultNode (a b : Node) : Node :=
  if Shape_IsScalar (n_shape a) then
    mkNode (Pos.succ (Pos.max (n_id a) (n_id b))) (n_t b) (n_shape b) exprGraphClust BNone
  else
    mkNode (Pos.succ (Pos.max (n_id a) (n_id b))) (n_t a) (n_shape a) exprGraphClust BNone.

#[export] Instance graphBuilder : GraphBuilder := {|
  Neg := fun a => Ret (resultNode a a);
  HadamardProd := fun a b => Ret (resultNode a b);
  HadamardDiv := fun a b => Ret (resultNode a b);
  Sum := fun a => Ret (mkNode (Pos.succ (n_id a)) (n_t a) scalarShape exprGraphClust BNone);
  Broadcast := fun _ a b _ => Ret (resultNode a b)
|}.

#[export] Instance nodeLib : NodeLib := {|
  prune := fun ty => ty;
  dtypeOf := fun ty =>
    match ty with
    | TyDtype d | TyTensor _ (TyDtype d) => inr d
    | _ => inl (errors_New "no dtype")
    end;
  sf32UnaryOperators := fun u =>
    match u with negOpType => sf32UnaryOperator SFopp | _ => nilUnaryOperator end;
  sf64UnaryOperators := fun u =>
    match u with negOpType => sf64UnaryOperator SFopp | _ => nilUnaryOperator end;
  SetDeriv := fun dv d => (mkDualValue (dv_Value dv) d, None)
|}.

End Sample.

(* ================================================================= *)
(** ** Vocabulary of the statements *)

Definition Value_isTensor (x : Value) : bool :=
  match x with VTensor _ => true | _ => false end.

Definition Value_isScalar (x : Value) : bool :=
  match x with VScalar _ => true | _ => false end.

(** A scalar value of a floating-point dtype. *)
Definition floatScalar (dt : Dtype) (x : spec_float) : Value :=
  VScalar (mkScalar (match dt with Float32 => RF32 x | _ => RF64 x end) dt).

Definition floatOfZ (dt : Dtype) (z : Z) : spec_float :=
  match dt with Float32 => float32_of_Z z | _ => float64_of_Z z end.

Definition isFloatDtype (dt : Dtype) : bool :=
  match dt with Float64 | Float32 => true | _ => false end.

(** The mathematical comparison a comparison kind stands for. *)
Definition holds (k : BinaryOperatorType) (x y : spec_float) : bool :=
  match k with
  | ltOpType => SFltb x y
  | gtOpType => SFltb y x
  | lteOpType => SFleb x y
  | gteOpType => SFleb y x
  | eqOpType => SFeqb x y
  | neOpType => negb (SFeqb x y)
  | _ => false
  end.

(** An option list that names no buffer to write into. *)
Definition namesNoBuffer (opts : list FuncOpt) : bool :=
  forallb (fun o => match o with WithReuse _ | WithIncr _ => false | _ => true end) opts.

(** A kernel invocation that was given no buffer to write into. *)
Definition inPlaceFree (c : KernelCall) : Prop := namesNoBuffer (k_opts c) = true.

(** A computation whose kernel invocations all satisfy [P]. *)
Definition logs {A} (P : KernelCall -> Prop) (c : M A) : Prop :=
  forall w, exists calls, klog (snd (c w)) = calls ++ klog w /\ Forall P calls.

(** The views of the tensors in storage. *)
Definition views (h : Heap) : gmap positive View := t_view <$> h.

(** A computation, or a kernel, that leaves the view of every tensor it
    found in storage as it was. *)
Definition keepsViews {A} (c : M A) : Prop :=
  forall w, views (heap w) ⊆ views (heap (snd (c w))).

Definition kernelKeepsViews {A} (k : Heap -> A * Heap) : Prop :=
  forall h, views h ⊆ views (snd (k h)).

(** The contract of the tensor package that transposition relies on: a
    transposition is undone by transposing again, and the primitives leave
    views alone. *)
Record ViewContract `{TensorLib} : Prop := {
  T_undo : forall x x', Tensor_T x = inr x' -> Tensor_T x' = inr x;
  MatMul_views : forall a b o, kernelKeepsViews (tensor_MatMul a b o);
  MatVecMul_views : forall a b o, kernelKeepsViews (tensor_MatVecMul a b o);
  Inner_views : forall a b, kernelKeepsViews (tensor_Inner a b);
  Outer_views : forall a b o, kernelKeepsViews (tensor_Outer a b o)
}.

(** Adding a result to an accumulator with the [add] operator in unsafe
    mode, as every [IncrDo] does for an accumulator it cannot write to. *)
Definition unsafeAdd `{MathLib} `{TensorLib} (incr retVal : Value) : M Value :=
  let* ity := Value_Type incr in
  let* rty := Value_Type retVal in
  let* add := lift (newEBOByType addOpType ity rty) in
  elemBinOp_UnsafeDo add [incr; retVal].

(** The operation of a given kind on two operand types, and the same
    operation with [retSame] set. *)
Definition withRetSame (b : bool) (op : elemBinOp) : elemBinOp :=
  mkElemBinOp (binOp op) (arg0 op) (arg1 op) b.

(** Inputs used in the examples. *)
Module Inputs.
Definition f64 (z : Z) : Value := floatScalar Float64 (float64_of_Z z).

Definition matrix23 : Node :=
  mkNode 1 (TyTensor 2 (TyDtype Float64)) [2; 3] exprGraphClust BNone.

Definition sumAxis1 : sumOp := mkSumOp [1] 2 [2; 3].

Definition ltFloat64 : elemBinOp :=
  mkElemBinOp (SBO (mkScalarBinOp ltOpType Float64))
              (TyDtype Float64) (TyDtype Float64) false.

Definition vecA : Tensor := mkTensor tf64_Tensor 1.
Definition vecB : Tensor := mkTensor tf64_Tensor 2.

Definition store : Heap :=
  <[1%positive := mkTensorObj (mkView [3] false)
                    [float64_of_Z 1; float64_of_Z 2; float64_of_Z 3]]>
    (<[2%positive := mkTensorObj (mkView [3] false)
                       [float64_of_Z 4; float64_of_Z 5; float64_of_Z 6]]> ∅).

Definition world : World := mkWorld store [] ∅.

Definition mulLeft : tBinOp := mkTBinOp mulOpType true.
Definition vecDotT : linAlgBinOp := mkLinAlgBinOp vecDotOperator true true.

(** The matrices [[1,2],[3,4]] and [[0,1],[1,0]]. *)
Definition matA : Tensor := mkTensor tf64_Tensor 1.
Definition matB : Tensor := mkTensor tf64_Tensor 2.
Definition matrices : World :=
  mkWorld
    (<[1%positive := mkTensorObj (mkView [2; 2] false)
                       [float64_of_Z 1; float64_of_Z 2; float64_of_Z 3; float64_of_Z 4]]>
       (<[2%positive := mkTensorObj (mkView [2; 2] false)
                          [float64_of_Z 0; float64_of_Z 1; float64_of_Z 1; float64_of_Z 0]]> ∅))
    [] ∅.

Definition scalarNode (i p : positive) : Node :=
  mkNode i (TyDtype Float64) scalarShape exprGraphClust (BDual p).

(** Dual values for x = 2, y = 3 and z = x * y with gradient 1. *)
Definition product : World :=
  mkWorld ∅ []
    (<[1%positive := mkDualValue (f64 2) (f64 0)]>
       (<[2%positive := mkDualValue (f64 3) (f64 0)]>
          (<[3%positive := mkDualValue (f64 6) (f64 1)]> ∅))).
End Inputs.

(* ================================================================= *)
(** ** Further methods of the operations *)

(** *** Linear algebra: shape inference, flags and hash *)

(** The shape helper [transpose] of the package. *)
Class ShapeLib := { transposeShape : Shape -> Shape }.

Section LinAlgShape.
Context `{ShapeLib}.

(** A shape without dimensions stands for the nil slice that
    [x == nil || y == nil] tests for. *)
Definition linAlgBinOp_InferShape (op : linAlgBinOp) (inputs : list DimSizer)
  : Outcome Shape :=
  let? i0 := index inputs 0 in
  if isNilDimSizer i0 then Fail (errors_Errorf nyiFail)
  else
    let? i1 := index inputs 1 in
    if isNilDimSizer i1 then Fail (errors_Errorf nyiFail)
    else
      let? x := assert_Shape i0 in
      let? y := assert_Shape i1 in
      if bool_decide (x = []) || bool_decide (y = []) then
        Fail (errors_Errorf (Lit "Cannot infer shape from %v %v"))
      else
        match la_op op with
        | matMulOperator =>
            let x := if transA op then transposeShape x else x in
            let y := if transB op then transposeShape y else y in
            let? x0 := index x 0 in
            let? y1 := index y 1 in
            Ret [x0; y1]
        | matVecMulOperator =>
            let x := if transA op then transposeShape x else x in
            let? x0 := index x 0 in
            let? y0 := index y 0 in
            let? mismatch :=
              if negb (x0 =? y0) then
                let? x1 := index x 1 in
                let? y0 := index y 0 in
                Ret (negb (x1 =? y0))
              else Ret false in
            if mismatch then Fail (errors_Errorf (Lit "Incompatible shapes: %v and %v"))
            else
              let? x0 := index x 0 in
              Ret [x0; 1]
        | vecDotOperator => Ret scalarShape
        | outerProdOperator => Ret [Shape_TotalSize x; Shape_TotalSize y]
        | invalidLinAlgOperator => Ret []
        end.
End LinAlgShape.

Definition linAlgBinOp_ReturnsPtr (op : linAlgBinOp) : bool := true.
Definition linAlgBinOp_OverwritesInput (op : linAlgBinOp) : Z := -1.
Definition linAlgBinOp_CallsExtern (op : linAlgBinOp) : bool :=
  if negb (bool_decide (la_op op = vecDotOperator)) then true else false.

(** Modelled from the spec: the byte behind a linear-algebra kind, in the
    order MatMul, MatVecMul, VecDot, OuterProd. *)
Definition linAlgByte (o : LinAlgOperator) : Z :=
  match o with
  | matMulOperator => 0
  | matVecMulOperator => 1
  | vecDotOperator => 2
  | outerProdOperator => 3
  | invalidLinAlgOperator => 4
  end.

(** The bytes [WriteHash] feeds to the digest: the kind, then one byte for
    each transpose flag. *)
Definition linAlgBinOp_WriteHash (op : linAlgBinOp) : list Z :=
  [linAlgByte (la_op op)]
  ++ (if transA op then [1] else [0])
  ++ (if transB op then [1] else [0]).

Definition linAlgBinOp_Hashcode (op : linAlgBinOp) : Z :=
  fnv32a (linAlgBinOp_WriteHash op).

(** *** Elementwise unary operation: shape and flags *)

Definition elemUnaryOp_Arity (op : elemUnaryOp) : nat := 1.

Definition elemUnaryOp_InferShape (op : elemUnaryOp) (inputs : list DimSizer)
  : Outcome Shape :=
  let? i0 := index inputs 0 in
  if isNilDimSizer i0 then Fail (errors_Errorf nyiFail)
  else assert_Shape i0.

Definition elemUnaryOp_ReturnsPtr (op : elemUnaryOp) : bool :=
  if argTensor op then true else false.

Definition elemUnaryOp_OverwritesInput (op : elemUnaryOp) : Z :=
  if argTensor op then 0 else -1.

(** *** More vocabulary *)

Definition precOf (dt : Dtype) : Z := match dt with Float32 => prec32 | _ => prec64 end.
Definition emaxOf (dt : Dtype) : Z := match dt with Float32 => emax32 | _ => emax64 end.

(** IEEE arithmetic in the precision of a dtype. *)
Definition fadd (dt : Dtype) := SFadd (precOf dt) (emaxOf dt).
Definition fsub (dt : Dtype) := SFsub (precOf dt) (emaxOf dt).
Definition fmul (dt : Dtype) := SFmul (precOf dt) (emaxOf dt).
Definition fdiv (dt : Dtype) := SFdiv (precOf dt) (emaxOf dt).

(** The arithmetic of the four basic kinds. *)
Definition arith (k : BinaryOperatorType) (dt : Dtype) : spec_float -> spec_float -> spec_float :=
  match k with
  | subOpType => fsub dt
  | mulOpType => fmul dt
  | divOpType => fdiv dt
  | _ => fadd dt
  end.

Definition isBasicArith (k : BinaryOperatorType) : bool :=
  match k with addOpType | subOpType | mulOpType | divOpType => true | _ => false end.

(** The operation of a kind on two scalars of a dtype, as [newEBOByType]
    builds it. *)
Definition scalarOp (k : BinaryOperatorType) (dt : Dtype) : elemBinOp :=
  mkElemBinOp (SBO (mkScalarBinOp k dt)) (TyDtype dt) (TyDtype dt) false.

(** A kind inside the enumeration. *)
Definition validKind (k : BinaryOperatorType) : bool :=
  match k with maxBinaryOpType => false | _ => true end.

(** A scalar value whose number is stored the way its dtype says. *)
Definition wellFormedFloat (x : Value) (dt : Dtype) : bool :=
  match x, dt with
  | VScalar (mkScalar (RF64 _) Float64), Float64 => true
  | VScalar (mkScalar (RF32 _) Float32), Float32 => true
  | _, _ => false
  end.

(** An operand list made of two scalars tagged with a dtype. *)
Definition scalarOperands (dt : Dtype) (vals : list Value) : bool :=
  match vals with
  | [VScalar a; VScalar b] => bool_decide (s_t a = dt) && bool_decide (s_t b = dt)
  | _ => false
  end.

(** The dtype of a value, when the value is a scalar. *)
Definition scalarDtype (x : Value) : option Dtype :=
  match x with VScalar s => Some (s_t s) | _ => None end.

(** A computation that runs at most one kernel, and only one that
    satisfies [P]. *)
Definition logsAtMostOne {A} (P : KernelCall -> Prop) (c : M A) : Prop :=
  forall w, klog (snd (c w)) = klog w
            \/ exists call, klog (snd (c w)) = call :: klog w /\ P call.

Definition isDtypeType (ty : Ty) : bool :=
  match ty with TyDtype _ => true | _ => false end.

(** The gradient [SymDiff] returns for an input: the gradient node, or its
    [Sum] when the input is scalar-shaped and the gradient node is not. *)
Definition gradientFor `{GraphBuilder} (input grad : Node) : Outcome Node :=
  if Node_IsScalar input && negb (Node_IsScalar grad) then
    match Sum grad with
    | Fail e => Fail (errors_Wrap e operationError)
    | r => r
    end
  else Ret grad.

(** An error other than the one that carries a value. *)
Definition plainError (e : error) : Prop :=
  match e with noIncrErr _ => False | _ => True end.

(** A dual value made of two numbers of a floating-point dtype. *)
Definition floatDual (dt : Dtype) (x d : spec_float) : dualValue :=
  mkDualValue (floatScalar dt x) (floatScalar dt d).

(** The unary operator that the table of a dtype holds for a kind, and an
    operator of a dtype made from a function. *)
Definition unaryOperatorOf `{NodeLib} (dt : Dtype) (u : UnaryOperatorType) : UnaryOperator :=
  match dt with Float32 => sf32UnaryOperators u | _ => sf64UnaryOperators u end.

Definition unaryOperatorFrom (dt : Dtype) (g : spec_float -> spec_float) : UnaryOperator :=
  match dt with Float32 => sf32UnaryOperator g | _ => sf64UnaryOperator g end.

(** A node of a scalar dtype bound to a dual value. *)
Definition boundScalar `{NodeLib} (n : Node) (dt : Dtype) (p : positive) : Prop :=
  boundTo n = BDual p /\ prune (n_t n) = TyDtype dt.



(** The spec's words for the reduced shape: each listed axis collapsed to
    size 1, every other axis as it was. *)
Definition collapsedShape (along : list Z) (shape : Shape) : Shape :=
  imap (fun i n => if bool_decide (Z.of_nat i ∈ along) then 1 else n) shape.

(** Every axis of a shape, in increasing order. *)
Definition allAxes (shape : Shape) : list Z := Z.of_nat <$> seq 0 (length shape).

(** A vector that is neither a row nor a column vector. *)
Definition plainVector (n : Node) : bool :=
  Node_IsVector n && negb (Node_IsRowVec n) && negb (Node_IsColVec n).

Module Sample2.
#[export] Instance shapeLib : ShapeLib := {| transposeShape := reverse |}.
End Sample2.

(* ================================================================= *)
(** ** Shape inference of elementwise operations *)

Lemma InferShape_scalar_scalar (op : elemBinOp) (x y : Shape) :
  Shape_IsScalar x = true -> Shape_IsScalar y = true ->
  elemBinOp_InferShape op [DSShape x; DSShape y] = Ret scalarShape.
Proof. intros Hx Hy. unfold elemBinOp_InferShape. simpl. by rewrite Hx, Hy. Qed.

Lemma InferShape_scalar_tensor (op : elemBinOp) (x y : Shape) :
  Shape_IsScalar x = true -> Shape_IsScalar y = false ->
  elemBinOp_InferShape op [DSShape x; DSShape y] = Ret y.
Proof. intros Hx Hy. unfold elemBinOp_InferShape. simpl. by rewrite Hx, Hy. Qed.

Lemma InferShape_tensor_scalar (op : elemBinOp) (x y : Shape) :
  Shape_IsScalar x = false -> Shape_IsScalar y = true ->
  elemBinOp_InferShape op [DSShape x; DSShape y] = Ret x.
Proof. intros Hx Hy. unfold elemBinOp_InferShape. simpl. by rewrite Hx, Hy. Qed.

(** Two tensor shapes always yield the first one: the comparison of the
    shapes has no effect on the result. *)
Lemma InferShape_tensor_tensor (op : elemBinOp) (x y : Shape) :
  Shape_IsScalar x = false -> Shape_IsScalar y = false ->
  elemBinOp_InferShape op [DSShape x; DSShape y] = Ret x.
Proof.
  intros Hx Hy. unfold elemBinOp_InferShape. simpl. rewrite Hx, Hy. simpl.
  by destruct (Shape_Eq x y).
Qed.

(** [InferShape] returns an error only for a nil argument. *)
Lemma InferShape_error_only_on_nil (op : elemBinOp) (inputs : list DimSizer) (e : error) :
  elemBinOp_InferShape op inputs = Fail e ->
  inputs !! 0%nat = Some DSNil \/ inputs !! 1%nat = Some DSNil.
Proof.
  unfold elemBinOp_InferShape, index, assert_Shape.
  destruct inputs as [|i0 [|i1 rest]]; simpl; try discriminate.
  - destruct i0; simpl; try discriminate. by left.
  - destruct i0; simpl; try discriminate; [by left|..];
      destruct i1; simpl; try discriminate; try by right.
    repeat case_match; discriminate.
Qed.

(** C1.  For the operand shapes [3,4] and [2,2], which are both tensor shapes
    and differ, [InferShape] of every elementwise binary operation returns
    the first shape [3,4] with a nil error; no shape-mismatch error is
    raised. *)
Theorem InferShape_unequal_tensor_shapes_accepted (op : elemBinOp) :
  elemBinOp_InferShape op [DSShape [3; 4]; DSShape [2; 2]] = Ret [3; 4].
Proof. reflexivity. Qed.

(* ================================================================= *)
(** ** Shape inference of reductions *)

(** The loop collapses exactly the listed axes: when every listed axis is
    inside the shape, the result has the same length, size 1 at each listed
    axis and the old size elsewhere. *)
Lemma sumOp_collapse_spec (along : list Z) (shape : Shape) :
  Forall (fun a => 0 <= a < Z.of_nat (length shape)) along ->
  exists shape',
    sumOp_collapse along shape = Ret shape' /\
    length shape' = length shape /\
    forall i : nat,
      shape' !! i = if bool_decide (Z.of_nat i ∈ along)
                    then (fun _ => 1) <$> shape !! i
                    else shape !! i.
Proof.
  revert shape. induction along as [|a rest IH]; intros shape Hall.
  - exists shape. split; [done|]. split; [done|]. intros i.
    rewrite bool_decide_eq_false_2; [done|]. apply not_elem_of_nil.
  - apply Forall_cons in Hall as [[Ha0 Ha1] Hrest]. simpl.
    destruct (Z.leb_spec (Z.of_nat (length shape)) a) as [|_]; [lia|].
    unfold setIndex.
    destruct (Z.leb_spec 0 a) as [_|]; [|lia].
    destruct (Z.ltb_spec a (Z.of_nat (length shape))) as [_|]; [|lia].
    simpl.
    destruct (IH (<[Z.to_nat a := 1]> shape)) as (shape' & Hrun & Hlen & Hget).
    { eapply Forall_impl; [exact Hrest|]. intros b Hb. simpl. by rewrite length_insert. }
    exists shape'. split; [done|]. rewrite length_insert in Hlen. split; [done|].
    intros i. rewrite Hget.
    destruct (decide (i = Z.to_nat a)) as [->|Hne].
    + rewrite list_lookup_insert_eq by lia.
      rewrite (bool_decide_eq_true_2 (Z.of_nat (Z.to_nat a) ∈ a :: rest))
        by (rewrite Z2Nat.id by lia; apply elem_of_cons; by left).
      destruct (shape !! Z.to_nat a) eqn:E.
      * simpl. by case_bool_decide.
      * apply lookup_ge_None in E. lia.
    + rewrite list_lookup_insert_ne by done.
      assert (Z.of_nat i ∈ a :: rest <-> Z.of_nat i ∈ rest) as Hiff.
      { rewrite elem_of_cons. split; [|by right]. intros [Heq|]; [lia|done]. }
      repeat case_bool_decide; tauto.
Qed.

Lemma IsMonotonicInts_from_seq (n k : nat) :
  IsMonotonicInts_from (Z.of_nat k) (Z.of_nat <$> seq (S k) n) true = (true, true).
Proof.
  revert k. induction n as [|n IH]; intros k; [done|].
  change (seq (S k) (S n)) with (S k :: seq (S (S k)) n). rewrite fmap_cons.
  unfold IsMonotonicInts_from; fold IsMonotonicInts_from.
  assert ((Z.of_nat (S k) <? Z.of_nat k) = false) as -> by (apply Z.ltb_ge; lia).
  assert ((Z.of_nat (S k) =? Z.of_nat k + 1) = true) as -> by (apply Z.eqb_eq; lia).
  apply IH.
Qed.

Lemma IsMonotonicInts_seq (n : nat) :
  IsMonotonicInts (Z.of_nat <$> seq 0 n) = (true, true).
Proof. destruct n as [|n]; [done|]. apply (IsMonotonicInts_from_seq n 0). Qed.

(** Reducing every axis of a shape of rank two or more, with the axes
    listed in increasing order, yields the scalar shape. *)
Lemma sumOp_inferShape_all_axes (d : Z) (s : Shape) (ty : Ty) (input : Node) :
  Node_IsScalar input = false ->
  Node_IsVector input = false ->
  sumOp_inferShape (mkSumOp (Z.of_nat <$> seq 0 (length (n_shape input))) d s) ty [input]
  = Ret scalarShape.
Proof.
  intros Hs Hv. unfold sumOp_inferShape. simpl. rewrite Hs, Hv. simpl.
  unfold Node_Shape. rewrite length_fmap, length_seq, Nat.ltb_irrefl.
  rewrite IsMonotonicInts_seq. simpl.
  by rewrite bool_decide_eq_true_2.
Qed.

Lemma IsMonotonicInts_from_incr (prev : Z) (rest : list Z) (b : bool) :
  IsMonotonicInts_from prev rest b = (true, true) ->
  b = true /\ forall (i : nat) (x : Z), rest !! i = Some x -> x = prev + 1 + Z.of_nat i.
Proof.
  revert prev b. induction rest as [|v rest IH]; intros prev b; simpl.
  - intros [= ->]. split; [done|]. intros i x Hx. by rewrite lookup_nil in Hx.
  - destruct (Z.ltb_spec v prev) as [|Hge]; [done|].
    intros Hrun. apply IH in Hrun as [Hb Hrest].
    destruct (Z.eqb_spec v (prev + 1)) as [->|]; [|done].
    split; [done|]. intros [|i] x Hx; simpl in Hx.
    + simplify_eq. lia.
    + apply Hrest in Hx. lia.
Qed.

(** Axes inside a shape that pass the test for a full reduction are all the
    axes of the shape, in increasing order. *)
Lemma full_reduction_test (along : list Z) (shape : Shape) :
  Forall (fun a => 0 <= a < Z.of_nat (length shape)) along ->
  (let '(monotonic, incr1) := IsMonotonicInts along in
   monotonic && incr1 && bool_decide (length along = length shape))
  = bool_decide (along = allAxes shape).
Proof.
  intros Hall. unfold allAxes.
  destruct (decide (along = Z.of_nat <$> seq 0 (length shape))) as [->|Hne].
  - rewrite IsMonotonicInts_seq, length_fmap, length_seq. simpl.
    by rewrite !bool_decide_eq_true_2.
  - rewrite (bool_decide_eq_false_2 _ Hne).
    destruct (IsMonotonicInts along) as [monotonic incr1] eqn:Hmono.
    destruct monotonic, incr1; simpl; try done.
    case_bool_decide as Hlen; [|done]. exfalso. apply Hne.
    destruct along as [|a0 rest].
    { destruct shape; [done|discriminate]. }
    simpl in Hmono. apply IsMonotonicInts_from_incr in Hmono as [_ Hrest].
    assert (forall (i : nat) x, (a0 :: rest) !! i = Some x -> x = a0 + Z.of_nat i) as Hget.
    { intros [|i] x Hx; simpl in Hx; [simplify_eq; lia|]. apply Hrest in Hx. lia. }
    assert (a0 = 0) as ->.
    { pose proof (Forall_lookup_1 _ _ 0%nat a0 Hall eq_refl) as Hfirst. simpl in Hfirst.
      destruct (lookup_lt_is_Some_2 (a0 :: rest) (length rest)) as [x Hx]; [simpl; lia|].
      pose proof (Forall_lookup_1 _ _ _ _ Hall Hx) as Hlast. simpl in Hlast.
      apply Hget in Hx. simpl in Hlen. lia. }
    apply list_eq. intros i. rewrite list_lookup_fmap.
    destruct (decide (i < length shape)%nat) as [Hi|Hi].
    + rewrite lookup_seq_lt by done. simpl.
      destruct (lookup_lt_is_Some_2 (0 :: rest) i) as [x Hx]; [lia|].
      rewrite Hx. apply Hget in Hx. f_equal. lia.
    + rewrite lookup_seq_ge by lia. simpl. apply lookup_ge_None_2. lia.
Qed.

(** Distinct axes inside a shape are no more than the shape has. *)
Lemma distinct_axes_length (along : list Z) (n : nat) :
  NoDup along ->
  Forall (fun a => 0 <= a < Z.of_nat n) along ->
  (length along <= n)%nat.
Proof.
  intros Hnd Hall.
  assert (along ⊆+ Z.of_nat <$> seq 0 n) as Hsub.
  { apply NoDup_submseteq; [done|]. intros x Hx.
    rewrite Forall_forall in Hall. apply Hall in Hx.
    apply list_elem_of_fmap. exists (Z.to_nat x). split; [lia|].
    apply elem_of_seq. lia. }
  apply submseteq_length in Hsub. by rewrite length_fmap, length_seq in Hsub.
Qed.

(** The loop computes the collapsed shape. *)
Lemma sumOp_collapse_collapsed (along : list Z) (shape : Shape) :
  Forall (fun a => 0 <= a < Z.of_nat (length shape)) along ->
  sumOp_collapse along shape = Ret (collapsedShape along shape).
Proof.
  intros Hall. destruct (sumOp_collapse_spec along shape Hall) as (s & -> & Hlen & Hget).
  f_equal. apply list_eq. intros i. rewrite Hget. unfold collapsedShape.
  rewrite list_lookup_imap. destruct (shape !! i); simpl; by case_bool_decide.
Qed.

(** C6.  For distinct axes that lie inside the input's shape, [inferShape]
    returns the input's shape with each listed axis collapsed to size 1 and
    kept, so the rank is unchanged; it returns the scalar shape instead for
    a scalar input, for a plain vector, when all axes are listed in
    increasing order, and when the collapsed shape is [1,1]. *)
Theorem sumOp_inferShape_collapses_listed_axes (op : sumOp) (ty : Ty) (input : Node) :
  NoDup (sum_along op) ->
  Forall (fun a => 0 <= a < Z.of_nat (length (n_shape input))) (sum_along op) ->
  sumOp_inferShape op ty [input]
  = Ret (if Node_IsScalar input || plainVector input
            || bool_decide (sum_along op = allAxes (n_shape input))
            || bool_decide (collapsedShape (sum_along op) (n_shape input) = oneone)
         then scalarShape
         else collapsedShape (sum_along op) (n_shape input)).
Proof.
  intros Hnd Hall. unfold sumOp_inferShape. simpl.
  destruct (Node_IsScalar input) eqn:Hs; [done|]. simpl.
  fold (plainVector input). destruct (plainVector input) eqn:Hv; simpl.
  - assert (length (n_shape input) = 1%nat) as Hrank.
    { unfold plainVector, Node_IsVector, Node_IsRowVec, Node_IsColVec, Shape_IsVector in Hv.
      destruct (n_shape input) as [|n [|m rest]]; [done|done|].
      destruct (Shape_IsColVec (n :: m :: rest)), (Shape_IsRowVec (n :: m :: rest));
        simpl in Hv; done. }
    rewrite Hrank in Hall. pose proof (distinct_axes_length _ 1 Hnd Hall) as Hlen.
    destruct (sum_along op) as [|a [|b rest]]; [done| |simpl in Hlen; lia].
    apply Forall_inv in Hall. simpl in Hall. assert (a = 0) as -> by lia. done.
  - unfold Node_Shape.
    pose proof (distinct_axes_length _ _ Hnd Hall) as Hlen.
    assert ((length (n_shape input) <? length (sum_along op))%nat = false) as ->
      by (apply Nat.ltb_ge; lia).
    pose proof (full_reduction_test _ _ Hall) as Htest.
    destruct (IsMonotonicInts (sum_along op)) as [monotonic incr1].
    rewrite Htest. destruct (bool_decide (sum_along op = allAxes (n_shape input))); [done|].
    simpl. rewrite (sumOp_collapse_collapsed _ _ Hall). simpl.
    unfold Shape_Eq.
    destruct (decide (collapsedShape (sum_along op) (n_shape input) = oneone)) as [He|He].
    + by rewrite !bool_decide_eq_true_2.
    + by rewrite !bool_decide_eq_false_2.
Qed.

(* ================================================================= *)
(** ** Max *)

Section MaxProperties.
Context `{GraphBuilder}.

Lemma maxOp_Do_arity (op : maxOp) (inputs : list Value) :
  length inputs <> 1%nat ->
  maxOp_Do op inputs
  = Fail (NewError GraphError (Lit "Expected only one input for maxop. Got %d instead")).
Proof. intros Hlen. unfold maxOp_Do. by rewrite bool_decide_eq_false_2. Qed.

(** When both broadcasts succeed, the assignment to element 0 of the nil
    result slice panics. *)
Lemma maxOp_SymDiff_panics (op : maxOp) (t output gradNode eq n : Node) :
  let bcpat := mkBroadcastPattern (maxOp_leftAxes op (length (Node_Shape t))) [] in
  Broadcast eqOpType output t bcpat = Ret eq ->
  Broadcast mulOpType gradNode eq bcpat = Ret n ->
  maxOp_SymDiff op [t] output gradNode = Panic indexPanic.
Proof. intros bcpat Heq Hmul. unfold maxOp_SymDiff. simpl. fold bcpat. by rewrite Heq, Hmul. Qed.

(** C3.  Forward evaluation of Max on any one input fails with the
    not-yet-implemented error and shape inference returns the scalar shape
    without error, but symbolic differentiation of Max never returns
    successfully, whatever its inputs and whatever the graph builder does:
    it ends in an error or in a panic. *)
Theorem maxOp_SymDiff_never_succeeds (op : maxOp) (inputs : Nodes)
    (output gradNode : Node) :
  (forall x : Value, maxOp_Do op [x] = Fail (NewError NotYetImplemented (Lit "maxOp")))
  /\ (forall ty ns, maxOp_inferShape op ty ns = Ret scalarShape)
  /\ forall retVal : Nodes, maxOp_SymDiff op inputs output gradNode <> Ret retVal.
Proof.
  split; [done|]. split; [done|]. intros retVal.
  unfold maxOp_SymDiff. case_bool_decide; simpl; [|done].
  destruct (index inputs 0) as [t| |]; simpl; [|done..].
  destruct (Broadcast eqOpType output t _) as [eq| |]; [|done..].
  destruct (Broadcast mulOpType gradNode eq _) as [n| |]; done.
Qed.
End MaxProperties.

(* ================================================================= *)
(** ** Structural hash *)

Section HashProperties.
Context `{TypeFmt} `{MathLib} `{TensorLib}.

(** Operations that agree on kind and operand types hash equally. *)
Lemma Hashcode_congruence (op op' : elemBinOp) :
  binOpType (binOp op) = binOpType (binOp op') ->
  arg0 op = arg0 op' -> arg1 op = arg1 op' ->
  elemBinOp_Hashcode op = elemBinOp_Hashcode op'.
Proof.
  intros Hk Ha Hb. unfold elemBinOp_Hashcode, elemBinOp_WriteHash.
  by rewrite Hk, Ha, Hb.
Qed.

(** C5.  The bytes that [WriteHash] feeds to the digest do not depend on
    [retSame]: an operation and the same operation with the flag flipped
    write the same bytes and have the same hash code, although the two
    evaluate differently, as the comparison of 2.0 and 3.0 shows. *)
Theorem WriteHash_ignores_retSame (op : elemBinOp) (w : World) :
  elemBinOp_WriteHash (withRetSame true op) = elemBinOp_WriteHash (withRetSame false op)
  /\ elemBinOp_Hashcode (withRetSame true op) = elemBinOp_Hashcode (withRetSame false op)
  /\ elemBinOp_Do (withRetSame true Inputs.ltFloat64) [Inputs.f64 2; Inputs.f64 3] w
     <> elemBinOp_Do (withRetSame false Inputs.ltFloat64) [Inputs.f64 2; Inputs.f64 3] w.
Proof. split; [done|]. split; [done|]. vm_compute. discriminate. Qed.
End HashProperties.

(* ================================================================= *)
(** ** Scalar comparisons and [retSame] *)

Section ScalarProperties.
Context `{MathLib}.

Lemma isCmp_not_arith (k : BinaryOperatorType) : isCmp k = true -> isArith k = false.
Proof. by destruct k. Qed.

(** An arithmetic kind does not look at the flag. *)
Lemma scalarBinOp_Do_arith_same (k : BinaryOperatorType) (dt : Dtype) (vals : list Value) :
  isArith k = true ->
  scalarBinOp_Do (mkScalarBinOp k dt) true vals
  = scalarBinOp_Do (mkScalarBinOp k dt) false vals.
Proof.
  intros Hk. unfold scalarBinOp_Do, castSame. simpl. by rewrite Hk.
Qed.

(** C4.  For a comparison kind [k] and two scalars of the operator's
    floating-point dtype, evaluation without [retSame] returns the
    boolean-typed scalar holding the outcome of the comparison, and
    evaluation with [retSame] returns the scalar 1 or 0 of the operand
    dtype; for an arithmetic kind the flag makes no difference. *)
Theorem scalar_comparison_retSame (k : BinaryOperatorType) (dt : Dtype)
    (x y : spec_float) :
  isCmp k = true ->
  isFloatDtype dt = true ->
  scalarBinOp_Do (mkScalarBinOp k dt) false [floatScalar dt x; floatScalar dt y]
  = Ret (VScalar (mkScalar (RBool (holds k x y)) Bool))
  /\ scalarBinOp_Do (mkScalarBinOp k dt) true [floatScalar dt x; floatScalar dt y]
     = Ret (floatScalar dt (floatOfZ dt (if holds k x y then 1 else 0)))
  /\ forall (k' : BinaryOperatorType) (vals : list Value),
       isArith k' = true ->
       scalarBinOp_Do (mkScalarBinOp k' dt) true vals
       = scalarBinOp_Do (mkScalarBinOp k' dt) false vals.
Proof.
  intros Hk Hdt. split; [|split].
  - destruct dt; try discriminate; destruct k; try discriminate; reflexivity.
  - destruct dt; try discriminate; destruct k; try discriminate;
      unfold scalarBinOp_Do, castSame, holds; simpl;
      match goal with |- context [if ?c then _ else _] => by destruct c end.
  - intros k' vals Hk'. by apply scalarBinOp_Do_arith_same.
Qed.
End ScalarProperties.

(* ================================================================= *)
(** ** Differentiation of Pow and of comparisons *)

Section DifferentiationProperties.
Context `{MathLib} `{TensorLib} `{NodeLib} `{GraphBuilder}.

(** C7.  Differentiation of HadamardPow, symbolic and numeric, fails with
    its not-yet-implemented error for every x, y, z and gradient, and so
    does differentiation through the operation; for every comparison kind
    the table entries are the non-differentiable rules, and both forms of
    differentiation through the operation fail with that error.  Numeric
    differentiation leaves the state as it was. *)
Theorem pow_and_comparisons_do_not_differentiate (op : elemBinOp)
    (x y z gradZ : Node) (w : World) :
  isCmp (binOpType (binOp op)) = true ->
  (hadamardPowDiffExpr x y z gradZ
     = Fail (errors_New "hadamardPowDiffExpr not yet implemented")
   /\ hadamardPowDiff x y z w
     = (Fail (errors_New "hadamardPowDiff not yet implemented"), w)
   /\ BinOpDiffExprs powOpType = Some hadamardPowDiffExpr
   /\ BinOpDiffFns powOpType = Some hadamardPowDiff
   /\ forall pow : elemBinOp,
        binOpType (binOp pow) = powOpType ->
        elemBinOp_SymDiff pow [x; y] z gradZ
          = Fail (errors_New "hadamardPowDiffExpr not yet implemented")
        /\ elemBinOp_DoDiff pow [x; y] z w
          = (Fail (errors_Wrap (errors_New "hadamardPowDiff not yet implemented")
                               autodiffFail), w))
  /\ (nondiffBinOpExpr x y z gradZ = Fail (errors_New "Nondifferentiable")
      /\ nondiffBinOp x y z w = (Fail (errors_New "Non differentiable"), w)
      /\ BinOpDiffExprs (binOpType (binOp op)) = Some nondiffBinOpExpr
      /\ BinOpDiffFns (binOpType (binOp op)) = Some nondiffBinOp
      /\ elemBinOp_SymDiff op [x; y] z gradZ = Fail (errors_New "Nondifferentiable")
      /\ elemBinOp_DoDiff op [x; y] z w
         = (Fail (errors_Wrap (errors_New "Non differentiable") autodiffFail), w)).
Proof.
  intros Hk. split.
  - do 4 (split; [reflexivity|]).
    intros pow Hpow. unfold elemBinOp_SymDiff, elemBinOp_DoDiff. simpl.
    by rewrite Hpow.
  - unfold elemBinOp_SymDiff, elemBinOp_DoDiff.
    destruct (binOpType (binOp op)); try discriminate; repeat split; reflexivity.
Qed.
End DifferentiationProperties.

(* ================================================================= *)
(** ** Values that are neither tensors nor scalars *)

Section UnaryProperties.
Context `{TensorLib}.

(** C9.  For an input that is neither a [Tensor] nor a [Scalar], the
    forward evaluation of an elementwise unary operation returns a nil
    value together with a nil error, and touches nothing. *)
Theorem elemUnaryOp_Do_other_value (op : elemUnaryOp) (x : Value)
    (opts : list FuncOpt) (w : World) :
  Value_isTensor x = false ->
  Value_isScalar x = false ->
  elemUnaryOp_do op [x] opts w = (Ret VNil, w)
  /\ elemUnaryOp_Do op [x] w = (Ret VNil, w).
Proof. intros Ht Hs. by destruct x. Qed.
End UnaryProperties.

(* ================================================================= *)
(** ** Linear algebra on operands that are not tensors *)

Section LinAlgPanics.
Context `{MathLib} `{TensorLib}.

Lemma linAlgBinOp_do_panics (op : linAlgBinOp) (a b : Value)
    (opts : list FuncOpt) (w : World) :
  Value_isTensor a && Value_isTensor b = false ->
  linAlgBinOp_do op [a; b] opts w = (Panic typeAssertPanic, w).
Proof. intros Hab. destruct a; try done; destruct b; done. Qed.

(** C10.  When one of the two operands of a linear-algebra operation is
    not a [Tensor], the type assertion in [do] panics: [Do], [IncrDo] with
    any accumulator and [UsePreallocDo] with a tensor destination all end
    in that panic instead of returning an error, with nothing changed. *)
Theorem linAlgBinOp_panics_on_non_tensor (op : linAlgBinOp) (a b : Value)
    (opts : list FuncOpt) (w : World) :
  Value_isTensor a && Value_isTensor b = false ->
  linAlgBinOp_do op [a; b] opts w = (Panic typeAssertPanic, w)
  /\ linAlgBinOp_Do op [a; b] w = (Panic typeAssertPanic, w)
  /\ (forall incr, linAlgBinOp_IncrDo op incr [a; b] w = (Panic typeAssertPanic, w))
  /\ (forall T, linAlgBinOp_UsePreallocDo op (VTensor T) [a; b] w
                = (Panic typeAssertPanic, w)).
Proof.
  intros Hab. split; [by apply linAlgBinOp_do_panics|].
  split; [by apply linAlgBinOp_do_panics|]. split.
  - intros incr. unfold linAlgBinOp_IncrDo, bind, wrapping.
    destruct incr; by rewrite linAlgBinOp_do_panics.
  - intros T. by apply linAlgBinOp_do_panics.
Qed.
End LinAlgPanics.

(* ================================================================= *)
(** ** Transposition is undone when [do] is left *)

Section ViewFrame.
Context `{TensorLib}.

Lemma keepsViews_ret {A} (a : A) : keepsViews (ret a).
Proof. by intros w. Qed.

Lemma keepsViews_fail {A} (e : error) : keepsViews (@fail A e).
Proof. by intros w. Qed.

Lemma keepsViews_panic {A} (m : string) : keepsViews (@panic A m).
Proof. by intros w. Qed.

Lemma keepsViews_lift {A} (c : Outcome A) : keepsViews (lift c).
Proof. by intros w. Qed.

Lemma keepsViews_getHeap : keepsViews getHeap.
Proof. by intros w. Qed.

Lemma keepsViews_bind {A B} (c : M A) (k : A -> M B) :
  keepsViews c -> (forall a, keepsViews (k a)) -> keepsViews (bind c k).
Proof.
  intros Hc Hk w. unfold bind. specialize (Hc w).
  destruct (c w) as [[a|e|m] w1]; simpl in *; try done.
  etrans; [exact Hc|]. apply Hk.
Qed.

Lemma keepsViews_invoke {A} (call : KernelCall) (k : Heap -> (error + A) * Heap) :
  kernelKeepsViews k -> keepsViews (invoke call k).
Proof.
  intros Hk w. unfold invoke. specialize (Hk (heap w)).
  by destruct (k (heap w)) as [r h].
Qed.

(** Transposing for the duration of a body that keeps views, keeps views:
    the deferred transposition finds the view the first one left, and
    undoes it. *)
Lemma keepsViews_transposedFor {A} (flag : bool) (T : Tensor) (body : M A) :
  (forall x x', Tensor_T x = inr x' -> Tensor_T x' = inr x) ->
  keepsViews body ->
  keepsViews (transposedFor flag T body).
Proof.
  intros Hundo Hbody. unfold transposedFor. destruct flag; [|done].
  intros w. unfold bind. unfold T_call at 1.
  destruct (heap w !! addr T) as [o|] eqn:Eo; [|done].
  destruct (Tensor_T (t_view o)) as [e|x'] eqn:ET; [done|].
  unfold with_defer.
  set (w1 := setHeap (<[addr T:=mkTensorObj x' (t_data o)]> (heap w)) w).
  specialize (Hbody w1). destruct (body w1) as [r w2]. simpl in Hbody.
  assert (views (heap w2) !! addr T = Some x') as Hx'.
  { eapply lookup_weaken; [|exact Hbody]. unfold views, w1. simpl.
    by rewrite lookup_fmap, lookup_insert_eq. }
  unfold views in Hx'. rewrite lookup_fmap in Hx'.
  destruct (heap w2 !! addr T) as [o2|] eqn:Eo2; [|done].
  simpl in Hx'. injection Hx' as Hx'.
  unfold T_call. rewrite Eo2, Hx', (Hundo _ _ ET). simpl.
  apply map_subseteq_spec. intros i x Hi. unfold views in *.
  destruct (decide (i = addr T)) as [->|Hne].
  - rewrite lookup_fmap, Eo in Hi. rewrite lookup_fmap, lookup_insert_eq.
    simpl in *. done.
  - rewrite lookup_fmap, lookup_insert_ne by done.
    rewrite <- lookup_fmap. eapply lookup_weaken; [|exact Hbody].
    unfold w1. simpl. rewrite lookup_fmap, lookup_insert_ne by done.
    by rewrite <- lookup_fmap.
Qed.

Lemma keepsViews_dispatch (op : linAlgBinOp) (a b : Tensor) (opts : list FuncOpt) :
  ViewContract -> keepsViews (linAlgBinOp_dispatch op a b opts).
Proof.
  intros [Hundo Hmm Hmv Hin Hout]. unfold linAlgBinOp_dispatch.
  destruct (la_op op).
  - apply keepsViews_bind; [by apply keepsViews_invoke|]. intros. apply keepsViews_ret.
  - apply keepsViews_bind; [by apply keepsViews_invoke|]. intros. apply keepsViews_ret.
  - apply keepsViews_bind; [by apply keepsViews_invoke|]. intros [e|r].
    + apply keepsViews_panic.
    + apply keepsViews_bind; [apply keepsViews_getHeap|]. intros. apply keepsViews_ret.
  - apply keepsViews_bind; [by apply keepsViews_invoke|]. intros. apply keepsViews_ret.
  - apply keepsViews_ret.
Qed.

Lemma keepsViews_do (op : linAlgBinOp) (inputs : list Value) (opts : list FuncOpt) :
  ViewContract -> keepsViews (linAlgBinOp_do op inputs opts).
Proof.
  intros HC. pose proof (@T_undo _ HC) as Hundo.
  unfold linAlgBinOp_do.
  apply keepsViews_bind; [apply keepsViews_lift|]. intros _.
  apply keepsViews_bind; [apply keepsViews_lift|]. intros i0.
  apply keepsViews_bind; [apply keepsViews_lift|]. intros i1.
  apply keepsViews_bind; [apply keepsViews_lift|]. intros a.
  apply keepsViews_bind; [apply keepsViews_lift|]. intros b.
  apply keepsViews_transposedFor; [done|].
  apply keepsViews_transposedFor; [done|].
  apply keepsViews_bind; [by apply keepsViews_dispatch|].
  intros [e|r]; [apply keepsViews_fail|apply keepsViews_lift].
Qed.

(** C8.  Under the contract of the tensor package (a transposition is undone
    by transposing again; the primitives leave views alone), every call of
    [do] leaves each tensor in storage with the view it had before the
    call, on every path: normal return, error return and panic, whatever
    the transpose flags, the operands and the options are. *)
Theorem linAlgBinOp_do_restores_views (op : linAlgBinOp) (inputs : list Value)
    (opts : list FuncOpt) (w : World) (p : positive) (o : TensorObj) :
  ViewContract ->
  heap w !! p = Some o ->
  exists o', heap (snd (linAlgBinOp_do op inputs opts w)) !! p = Some o'
             /\ t_view o' = t_view o.
Proof.
  intros HC Hp. pose proof (keepsViews_do op inputs opts HC w) as Hsub.
  assert (views (heap (snd (linAlgBinOp_do op inputs opts w))) !! p = Some (t_view o)) as Hv.
  { eapply lookup_weaken; [|exact Hsub]. unfold views. by rewrite lookup_fmap, Hp. }
  unfold views in Hv. rewrite lookup_fmap in Hv.
  destruct (heap (snd (linAlgBinOp_do op inputs opts w)) !! p) as [o'|]; [|done].
  exists o'. split; [done|]. simpl in Hv. congruence.
Qed.
End ViewFrame.

(* ================================================================= *)
(** ** [IncrDo] into an accumulator that is not a tensor *)

Section KernelLog.
Context `{MathLib} `{TensorLib}.

Lemma logs_same {A} (P : KernelCall -> Prop) (c : M A) :
  (forall w, klog (snd (c w)) = klog w) -> logs P c.
Proof. intros Hc w. exists []. by rewrite Hc. Qed.

Lemma logs_ret {A} P (a : A) : logs P (ret a).
Proof. by apply logs_same. Qed.

Lemma logs_fail {A} P (e : error) : logs P (@fail A e).
Proof. by apply logs_same. Qed.

Lemma logs_panic {A} P (m : string) : logs P (@panic A m).
Proof. by apply logs_same. Qed.

Lemma logs_lift {A} P (c : Outcome A) : logs P (lift c).
Proof. by apply logs_same. Qed.

Lemma logs_bind {A B} P (c : M A) (k : A -> M B) :
  logs P c -> (forall a, logs P (k a)) -> logs P (bind c k).
Proof.
  intros Hc Hk w. unfold bind. destruct (Hc w) as (l1 & E1 & F1).
  destruct (c w) as [[a|e|m] w1]; simpl in *; try by exists l1.
  destruct (Hk a w1) as (l2 & E2 & F2). exists (l2 ++ l1).
  rewrite E2, E1, (assoc_L (++)). split; [done|]. by apply Forall_app.
Qed.


Lemma logs_mono {A} (P Q : KernelCall -> Prop) (c : M A) :
  (forall k, P k -> Q k) -> logs P c -> logs Q c.
Proof.
  intros HPQ Hc w. destruct (Hc w) as (l & E & F). exists l. split; [done|].
  eapply Forall_impl; [exact F|done].
Qed.

Lemma logs_invoke {A} (P : KernelCall -> Prop) (call : KernelCall)
    (k : Heap -> (error + A) * Heap) :
  P call -> logs P (invoke call k).
Proof.
  intros HP w. unfold invoke. destruct (k (heap w)) as [r h].
  exists [call]. split; [done|]. by apply Forall_singleton.
Qed.








(** [Value_Type] returns or panics, and changes nothing. *)
Lemma Value_Type_cases (x : Value) (w : World) :
  (exists ty, Value_Type x w = (Ret ty, w)) \/ (exists m, Value_Type x w = (Panic m, w)).
Proof.
  destruct x; simpl; eauto.
  unfold bind, getHeap. simpl. destruct (heap w !! addr T); simpl; eauto.
Qed.

Lemma newEBOByType_cases (ot : BinaryOperatorType) (a b : Ty) :
  (exists op, newEBOByType ot a b = Ret op) \/ (exists m, newEBOByType ot a b = Panic m).
Proof. unfold newEBOByType. destruct a, b; simpl; eauto. Qed.

(** The rerouting block ends in the value-carrying error exactly when the
    unsafe addition succeeds, and the error carries the sum; it never ends
    with a nil error. *)
Lemma addAndReroute_spec (incr retVal : Value) (w : World) :
  fst (addAndReroute incr retVal w) <> Ret tt
  /\ forall s w',
       addAndReroute incr retVal w = (Fail (noIncrErr s), w')
       <-> unsafeAdd incr retVal w = (Ret s, w').
Proof.
  unfold addAndReroute, unsafeAdd, bind, wrapping, lift, fail.
  destruct (Value_Type_cases incr w) as [[ity ->]|[m ->]]; [|by split].
  destruct (Value_Type_cases retVal w) as [[rty ->]|[m ->]]; [|by split].
  destruct (newEBOByType_cases addOpType ity rty) as [[add ->]|[m ->]]; [|by split].
  destruct (elemBinOp_UnsafeDo add [incr; retVal] w) as [[s0|e|m] w0].
  - split; [done|]. intros s w'. split; intros; by simplify_eq.
  - split; [done|]. intros s w'. split; intros; by simplify_eq.
  - split; [done|]. intros s w'. split; intros; by simplify_eq.
Qed.

(** The same facts for a computation followed by the rerouting block, the
    shape of every [IncrDo] for an accumulator that is not a tensor. *)
Lemma reroute_spec (compute : M Value) (incr : Value) (w : World) :
  let res := (let* retVal := wrapping doFail compute in addAndReroute incr retVal) w in
  fst res <> Ret tt
  /\ forall s w',
       res = (Fail (noIncrErr s), w')
       <-> exists r w1, compute w = (Ret r, w1) /\ unsafeAdd incr r w1 = (Ret s, w').
Proof.
  unfold bind, wrapping. destruct (compute w) as [[r|e|m] w1]; simpl.
  - destruct (addAndReroute_spec incr r w1) as [Hnil Hiff]. split; [done|].
    intros s w'. rewrite Hiff. split.
    + intros Hadd. by exists r, w1.
    + intros (r' & w1' & Hc & Hadd). by simplify_eq.
  - split; [done|]. intros s w'. split; [done|].
    intros (r' & w1' & Hc & Hadd). done.
  - split; [done|]. intros s w'. split; [done|].
    intros (r' & w1' & Hc & Hadd). done.
Qed.







(** The elementwise operation on two scalars reroutes in the same way. *)
Lemma elemBinOp_IncrDo_scalar_op (op : elemBinOp) (incr : Value)
    (inputs : list Value) (w : World) :
  elemBinOp_ReturnsPtr op = false ->
  fst (elemBinOp_IncrDo op incr inputs w) <> Ret tt
  /\ forall s w',
       elemBinOp_IncrDo op incr inputs w = (Fail (noIncrErr s), w')
       <-> exists r w1, elemBinOp_Do op inputs w = (Ret r, w1)
                        /\ unsafeAdd incr r w1 = (Ret s, w').
Proof.
  intros Hptr. unfold elemBinOp_IncrDo. rewrite Hptr. simpl.
  apply reroute_spec.
Qed.
End KernelLog.

(* ================================================================= *)
(** ** The sample collaborators meet the contract *)

Section SampleFacts.
Import Sample.

Lemma fresh_unused (h : Heap) : h !! fresh h = None.
Proof.
  assert (forall k, is_Some (h !! k) ->
            (k <= map_fold (fun k _ m => Pos.max k m) 1 h)%positive) as Hmax.
  { apply (map_fold_weak_ind
             (fun r (m : Heap) => forall k, is_Some (m !! k) -> (k <= r)%positive)).
    - intros k [x Hx]. by rewrite lookup_empty in Hx.
    - intros i x m r Hnone IH k Hk. destruct (decide (k = i)) as [->|Hne]; [lia|].
      rewrite lookup_insert_ne in Hk by done. specialize (IH k Hk). lia. }
  destruct (h !! fresh h) eqn:E; [|done].
  specialize (Hmax (fresh h) (mk_is_Some _ _ E)). unfold fresh in Hmax. lia.
Qed.

Lemma views_overwrite (h : Heap) (p : positive) (o : TensorObj) (d : list spec_float) :
  h !! p = Some o -> views (<[p := mkTensorObj (t_view o) d]> h) = views h.
Proof.
  intros Hp. unfold views. rewrite fmap_insert. apply insert_id.
  by rewrite lookup_fmap, Hp.
Qed.

Lemma store_views (i : TensorImpl) (opts : list FuncOpt) (dflt : Tensor) (x : View)
    (out : list spec_float) :
  kernelKeepsViews (store i opts dflt x out).
Proof.
  intros h. unfold store.
  assert (views h ⊆ views (<[fresh h := mkTensorObj x out]> h)) as Hfresh.
  { unfold views. rewrite fmap_insert. apply insert_subseteq.
    by rewrite lookup_fmap, fresh_unused. }
  destruct opts as [|[| |T|T] rest]; simpl; try done.
  - destruct (h !! addr dflt) as [o|] eqn:E; simpl; [|done].
    by rewrite (views_overwrite h _ o _ E).
  - destruct (h !! addr T) as [o|] eqn:E; simpl; [|done].
    by rewrite (views_overwrite h _ o _ E).
  - destruct (h !! addr T) as [o|] eqn:E; simpl; [|done].
    by rewrite (views_overwrite h _ o _ E).
Qed.

Lemma linAlg_views f (a b : Tensor) (opts : list FuncOpt) :
  kernelKeepsViews (linAlg f a b opts).
Proof.
  intros h. unfold linAlg.
  destruct (h !! addr a) as [oa|]; [|done]. destruct (h !! addr b) as [ob|]; [|done].
  destruct (f (impl a) oa ob) as [shape out]. apply store_views.
Qed.

Lemma transposeView_undo (x x' : View) :
  transposeView x = inr x' -> transposeView x' = inr x.
Proof.
  destruct x as [s f]. unfold transposeView. simpl.
  destruct s as [|n s]; [done|]. intros [= <-]. simpl.
  destruct (reverse (n :: s)) as [|m r] eqn:E.
  { apply (f_equal length) in E. by rewrite length_reverse in E. }
  by rewrite <- E, reverse_involutive, negb_involutive.
Qed.

Lemma sample_contract : @ViewContract tensorLib.
Proof.
  split.
  - exact transposeView_undo.
  - intros a b o. apply linAlg_views.
  - intros a b o. apply linAlg_views.
  - intros a b. apply linAlg_views.
  - intros a b o. apply linAlg_views.
Qed.
End SampleFacts.

(* ================================================================= *)
(** ** The statements at concrete inputs *)

Section Examples.
Import Sample Inputs.

(** 10 + [1,2,3] * [4,5,6] = [14,20,28] is handed back in the
    value-carrying error, in a new tensor; the operands are untouched. *)
Example IncrDo_scalar_accumulator :
  let res := tBinOp_IncrDo mulLeft (f64 10) [VTensor vecA; VTensor vecB] world in
  fst res = Fail (noIncrErr (VTensor (mkTensor tf64_Tensor 3)))
  /\ t_data <$> heap (snd res) !! 3%positive
     = Some [float64_of_Z 14; float64_of_Z 20; float64_of_Z 28]
  /\ heap (snd res) !! 1%positive = store !! 1%positive
  /\ heap (snd res) !! 2%positive = store !! 2%positive.
Proof. vm_compute. repeat split; reflexivity. Qed.

(** A failing operation yields a plain error, not the value-carrying one. *)
Example IncrDo_failed_operation :
  fst (tBinOp_IncrDo mulLeft (f64 10) [VTensor vecA] world)
  = Fail (errors_Wrap
            (NewError GraphError
               (Lit "Executing a binary operation expects 2 inputs. Got %d instead"))
            doFail).
Proof. reflexivity. Qed.

(** With [transA] the product is computed on the transposed operand, and the
    operand is back to its view afterwards. *)
Example matMul_transposed :
  let plain := linAlgBinOp_Do (mkLinAlgBinOp matMulOperator false false)
                 [VTensor matA; VTensor matB] matrices in
  let trans := linAlgBinOp_Do (mkLinAlgBinOp matMulOperator true false)
                 [VTensor matA; VTensor matB] matrices in
  t_data <$> heap (snd plain) !! 3%positive
    = Some [float64_of_Z 2; float64_of_Z 1; float64_of_Z 4; float64_of_Z 3]
  /\ t_data <$> heap (snd trans) !! 3%positive
    = Some [float64_of_Z 3; float64_of_Z 1; float64_of_Z 4; float64_of_Z 2]
  /\ heap (snd trans) !! 1%positive = heap matrices !! 1%positive.
Proof. vm_compute. repeat split; reflexivity. Qed.

(** Numeric differentiation of x * y at x = 2, y = 3 with gradient 1 stores
    3 and 2 as the derivatives of x and y. *)
Example hadamardProdDiff_scalars :
  let res := hadamardProdDiff (scalarNode 1 1) (scalarNode 2 2) (scalarNode 3 3) product in
  fst res = Ret tt
  /\ dv_d <$> duals (snd res) !! 1%positive = Some (f64 3)
  /\ dv_d <$> duals (snd res) !! 2%positive = Some (f64 2).
Proof. vm_compute. repeat split; reflexivity. Qed.



(** The shape [2,3] summed along axis 1. *)
Lemma sumOp_inferShape_collapses_listed_axes_witness :
  NoDup (sum_along Inputs.sumAxis1)
  /\ Forall (fun a => 0 <= a < Z.of_nat (length (n_shape Inputs.matrix23)))
            (sum_along Inputs.sumAxis1)
  /\ sumOp_inferShape Inputs.sumAxis1 (TyDtype Float64) [Inputs.matrix23] = Ret [2; 1].
Proof.
  assert (NoDup (sum_along Inputs.sumAxis1)) as Hnd by apply NoDup_singleton.
  assert (Forall (fun a => 0 <= a < Z.of_nat (length (n_shape Inputs.matrix23)))
                 (sum_along Inputs.sumAxis1)) as Hall
    by (apply Forall_singleton; simpl; lia).
  split; [exact Hnd|]. split; [exact Hall|].
  exact (sumOp_inferShape_collapses_listed_axes Inputs.sumAxis1 (TyDtype Float64)
           Inputs.matrix23 Hnd Hall).
Defined.

(** C6, as the claim states it: the shape inferred for an input of shape
    [2,3] summed along axis 1 is [2,1], not [2]. *)
Lemma sumOp_inferShape_axis_not_dropped :
  sumOp_inferShape Inputs.sumAxis1 (TyDtype Float64) [Inputs.matrix23] = Ret [2; 1]
  /\ sumOp_inferShape Inputs.sumAxis1 (TyDtype Float64) [Inputs.matrix23] <> Ret [2].
Proof. split; [reflexivity|]. intros [=]. Qed.

(** [Float64(2.0) < Float64(3.0)] is the boolean [true] without [retSame]
    and [Float64(1.0)] with it. *)
Lemma scalar_comparison_retSame_witness :
  isCmp ltOpType = true
  /\ isFloatDtype Float64 = true
  /\ scalarBinOp_Do (mkScalarBinOp ltOpType Float64) false [f64 2; f64 3]
     = Ret (VScalar (mkScalar (RBool true) Bool))
  /\ scalarBinOp_Do (mkScalarBinOp ltOpType Float64) true [f64 2; f64 3]
     = Ret (f64 1).
Proof.
  split; [reflexivity|]. split; [reflexivity|].
  pose proof (scalar_comparison_retSame ltOpType Float64
                (float64_of_Z 2) (float64_of_Z 3) eq_refl eq_refl) as (Hbool & Hsame & _).
  split; [exact Hbool|exact Hsame].
Defined.

Lemma pow_and_comparisons_do_not_differentiate_witness :
  isCmp (binOpType (binOp ltFloat64)) = true
  /\ elemBinOp_SymDiff ltFloat64 [scalarNode 1 1; scalarNode 2 2]
       (scalarNode 3 3) (scalarNode 4 4)
     = Fail (errors_New "Nondifferentiable").
Proof.
  split; [reflexivity|].
  pose proof (pow_and_comparisons_do_not_differentiate ltFloat64
                (scalarNode 1 1) (scalarNode 2 2) (scalarNode 3 3) (scalarNode 4 4)
                product eq_refl) as (_ & _ & _ & _ & _ & Hsym & _).
  exact Hsym.
Defined.

Lemma linAlgBinOp_do_restores_views_witness :
  ViewContract
  /\ heap world !! 1%positive
     = Some (mkTensorObj (mkView [3] false)
               [float64_of_Z 1; float64_of_Z 2; float64_of_Z 3])
  /\ exists o',
       heap (snd (linAlgBinOp_do vecDotT [VTensor vecA; VTensor vecB] [] world))
         !! 1%positive = Some o'
       /\ t_view o' = mkView [3] false.
Proof.
  split; [exact sample_contract|]. split; [reflexivity|].
  exact (linAlgBinOp_do_restores_views vecDotT [VTensor vecA; VTensor vecB] [] world
           1%positive _ sample_contract eq_refl).
Defined.

Lemma elemUnaryOp_Do_other_value_witness :
  Value_isTensor VNil = false
  /\ Value_isScalar VNil = false
  /\ elemUnaryOp_Do (mkElemUnaryOp (sf64UnaryOperator SFopp) false false) [VNil] world
     = (Ret VNil, world).
Proof.
  split; [reflexivity|]. split; [reflexivity|].
  exact (proj2 (elemUnaryOp_Do_other_value
                  (mkElemUnaryOp (sf64UnaryOperator SFopp) false false)
                  VNil [] world eq_refl eq_refl)).
Defined.

Lemma linAlgBinOp_panics_on_non_tensor_witness :
  Value_isTensor (VTensor vecA) && Value_isTensor (f64 1) = false
  /\ linAlgBinOp_Do vecDotT [VTensor vecA; f64 1] world = (Panic typeAssertPanic, world).
Proof.
  split; [reflexivity|].
  exact (proj1 (proj2 (linAlgBinOp_panics_on_non_tensor vecDotT (VTensor vecA) (f64 1)
                         [] world eq_refl))).
Defined.
End Examples.

(* ================================================================= *)
(** ** The scalar operator: which inputs it accepts *)

Section ScalarAcceptance.
Context `{MathLib}.

Lemma scalarBinOp_Do_Ret_inv (o : scalarBinOp) (same : bool) (vals : list Value) (r : Value) :
  scalarBinOp_Do o same vals = Ret r ->
  exists x y, vals = [x; y]
              /\ wellFormedFloat x (sb_t o) = true
              /\ wellFormedFloat y (sb_t o) = true
              /\ validKind (sb_type o) = true.
Proof.
  destruct o as [k dt]. intros Hr. unfold scalarBinOp_Do in Hr. simpl in Hr.
  destruct vals as [|x [|y [|? ?]]]; try discriminate.
  exists x, y. split; [done|].
  destruct x as [|[xr xt]| |]; try discriminate;
    destruct y as [|[yr yt]| |]; try discriminate.
  simpl in Hr. repeat case_bool_decide; simpl in Hr; try discriminate. subst.
  destruct dt; try discriminate;
    destruct xr; try discriminate; destruct yr; try discriminate;
    destruct k; try done; destruct same; discriminate.
Qed.

(** X1.  [scalarBinOp.Do] returns a value exactly for two scalars that carry the
    operator's dtype, a floating-point one, with numbers stored as that
    dtype, and a kind inside the enumeration. *)
Theorem scalarBinOp_Do_succeeds_iff (o : scalarBinOp) (same : bool) (vals : list Value) :
  (exists r, scalarBinOp_Do o same vals = Ret r)
  <-> exists x y, vals = [x; y]
                  /\ wellFormedFloat x (sb_t o) = true
                  /\ wellFormedFloat y (sb_t o) = true
                  /\ validKind (sb_type o) = true.
Proof.
  split.
  - intros [r Hr]. by eapply scalarBinOp_Do_Ret_inv.
  - destruct o as [k dt]. intros (x & y & -> & Hx & Hy & Hk).
    destruct x as [|[xr xt]| |]; try discriminate;
      destruct y as [|[yr yt]| |]; try discriminate.
    destruct dt; destruct xr, xt; try discriminate; destruct yr, yt; try discriminate;
      destruct k; try discriminate;
      unfold scalarBinOp_Do, castSame; simpl; destruct same; simpl;
      repeat match goal with |- context [if ?c then _ else _] => destruct c end;
      eauto.
Qed.

(** X2.  The dtype of the result: the operator's dtype for an arithmetic kind
    and for a comparison with [retSame], [Bool] for a plain comparison. *)
Theorem scalarBinOp_Do_result_dtype (o : scalarBinOp) (same : bool)
    (vals : list Value) (r : Value) :
  scalarBinOp_Do o same vals = Ret r ->
  scalarDtype r = Some (if isArith (sb_type o) || same then sb_t o else Bool).
Proof.
  intros Hr. destruct (scalarBinOp_Do_Ret_inv o same vals r Hr)
    as (x & y & -> & Hx & Hy & Hk).
  destruct o as [k dt]. simpl in *.
  destruct x as [|[xr xt]| |]; try discriminate;
    destruct y as [|[yr yt]| |]; try discriminate.
  destruct dt; destruct xr, xt; try discriminate; destruct yr, yt; try discriminate;
    destruct k; try discriminate;
    unfold scalarBinOp_Do, castSame in Hr; simpl in Hr; destruct same; simpl in Hr;
    repeat match type of Hr with context [if ?c then _ else _] => destruct c end;
    try discriminate; injection Hr as <-; reflexivity.
Qed.

(** X3.  Operands that are not two scalars tagged with the operator's dtype are
    rejected with an error value: nothing is coerced and nothing panics. *)
Theorem scalarBinOp_Do_rejects (o : scalarBinOp) (same : bool) (vals : list Value) :
  scalarOperands (sb_t o) vals = false ->
  exists e, scalarBinOp_Do o same vals = Fail e.
Proof.
  intros Hv. unfold scalarBinOp_Do.
  destruct vals as [|x [|y [|? ?]]]; simpl; eauto.
  destruct x as [|a| |]; eauto; destruct y as [|b| |]; eauto.
  simpl in Hv. repeat case_bool_decide; simpl in *; eauto. discriminate.
Qed.
End ScalarAcceptance.

(* ================================================================= *)
(** ** The tensor operator: rejections, kernels and accumulation *)

Section TensorOperatorProperties.
Context `{MathLib} `{TensorLib}.

(** X4.  Operands of different dtypes are rejected before anything else is
    looked at: no kernel runs and nothing changes. *)
Theorem tBinOp_do_dtype_mismatch (o : tBinOp) (x y : Value) (dx dy : Dtype)
    (opts : list FuncOpt) (w : World) :
  Value_Dtype x = Ret dx ->
  Value_Dtype y = Ret dy ->
  bool_decide (dx = dy) = false ->
  tBinOp_do o [x; y] opts w
  = (Fail (errors_Errorf (Lit "Dtype mismatch for bin op: %v and %v")), w).
Proof.
  intros Hx Hy Hne. unfold tBinOp_do, bind, lift. simpl. by rewrite Hx, Hy, Hne.
Qed.

(** X5.  The operand on the side the operator declares as the tensor side must
    be a [Tensor]: otherwise the call fails with an error, no kernel runs and
    nothing changes.  Two scalars are therefore always rejected. *)
Theorem tBinOp_do_needs_tensor (o : tBinOp) (x y : Value) (d : Dtype)
    (opts : list FuncOpt) (w : World) :
  Value_Dtype x = Ret d ->
  Value_Dtype y = Ret d ->
  Value_isTensor (if tensorLeft o then x else y) = false ->
  exists e, tBinOp_do o [x; y] opts w = (Fail e, w).
Proof.
  intros Hx Hy Hside. unfold tBinOp_do, bind, lift. simpl. rewrite Hx, Hy.
  rewrite bool_decide_eq_true_2 by done. simpl.
  destruct (tensorLeft o).
  - destruct x; try discriminate; eauto.
  - destruct y; try discriminate; eauto.
Qed.

Lemma logsAtMostOne_same {A} (P : KernelCall -> Prop) (c : M A) :
  (forall w, klog (snd (c w)) = klog w) -> logsAtMostOne P c.
Proof. intros Hc w. by left. Qed.

Lemma logsAtMostOne_bind_l {A B} P (c : M A) (k : A -> M B) :
  (forall w, klog (snd (c w)) = klog w) ->
  (forall a, logsAtMostOne P (k a)) ->
  logsAtMostOne P (bind c k).
Proof.
  intros Hc Hk w. unfold bind. specialize (Hc w).
  destruct (c w) as [[a|e|m] w1]; simpl in *; try by left.
  rewrite <- Hc. apply Hk.
Qed.

Lemma logsAtMostOne_bind_r {A B} P (c : M A) (k : A -> M B) :
  logsAtMostOne P c ->
  (forall a w, klog (snd (k a w)) = klog w) ->
  logsAtMostOne P (bind c k).
Proof.
  intros Hc Hk w. unfold bind. specialize (Hc w).
  destruct (c w) as [[a|e|m] w1]; simpl in *; try done.
  by rewrite Hk.
Qed.

Lemma Materialize_klog (T : Tensor) (w : World) : klog (snd (Materialize T w)) = klog w.
Proof. unfold Materialize. by destruct (Tensor_Materialize T (heap w)). Qed.

Lemma logsAtMostOne_callRegistry reg d b x y opts :
  logsAtMostOne (fun c => k_opts c = opts /\ k_name c = ElemKernel d b)
                (callRegistry reg d b x y opts).
Proof.
  unfold callRegistry. destruct (reg b) as [fn|]; [|by apply logsAtMostOne_same].
  intros w. unfold bind, invoke. destruct (fn x y opts (heap w)) as [[e|r] h]; simpl;
    right; eexists; by split.
Qed.

Lemma logsAtMostOne_mono {A} (P Q : KernelCall -> Prop) (c : M A) :
  (forall k, P k -> Q k) -> logsAtMostOne P c -> logsAtMostOne Q c.
Proof.
  intros HPQ Hc w. destruct (Hc w) as [Hs|(call & Hl & HP)]; [by left|].
  right. exists call. split; [done|]. by apply HPQ.
Qed.

Lemma tBinOp_do_kernel (o : tBinOp) (vals : list Value) (opts : list FuncOpt) :
  logsAtMostOne
    (fun c => k_opts c = opts
              /\ exists d, isFloatDtype d = true /\ k_name c = ElemKernel d (tb_type o))
    (tBinOp_do o vals opts).
Proof.
  unfold tBinOp_do. case_bool_decide; simpl; [|by apply logsAtMostOne_same].
  apply logsAtMostOne_bind_l; [done|]. intros v0.
  apply logsAtMostOne_bind_l; [done|]. intros v1.
  apply logsAtMostOne_bind_l; [done|]. intros d0.
  apply logsAtMostOne_bind_l; [done|]. intros d1.
  case_bool_decide; simpl; [|by apply logsAtMostOne_same].
  apply logsAtMostOne_bind_l.
  - intros w. destruct (tensorLeft o).
    + destruct v0 as [| |T|]; try done. unfold bind.
      pose proof (Materialize_klog T w) as Ha.
      destruct (Materialize T w) as [[a|?|?] w1]; try done. simpl in Ha.
      destruct v1 as [| |T'|]; try done.
      pose proof (Materialize_klog T' w1) as Hb.
      destruct (Materialize T' w1) as [[b|?|?] w2]; simpl in *; congruence.
    + destruct v1 as [| |T|]; try done. unfold bind.
      pose proof (Materialize_klog T w) as Hb.
      destruct (Materialize T w) as [[b|?|?] w1]; try done. simpl in Hb.
      destruct v0 as [| |T'|]; try done.
      pose proof (Materialize_klog T' w1) as Ha.
      destruct (Materialize T' w1) as [[a|?|?] w2]; simpl in *; congruence.
  - intros ab. apply logsAtMostOne_bind_r; [|done].
    destruct d0; try (by apply logsAtMostOne_same);
      destruct (isArith (tb_type o));
      (eapply logsAtMostOne_mono; [|apply logsAtMostOne_callRegistry]);
      intros c [Ho Hn]; (split; [done|]); eexists; (split; [|exact Hn]); done.
Qed.

(** X6.  One call of [do] runs at most one kernel: the one registered for the
    operands' dtype and the operator's kind, with exactly the options [do]
    was given. *)
Theorem tBinOp_do_runs_one_kernel (o : tBinOp) (vals : list Value) (opts : list FuncOpt) :
  logsAtMostOne
    (fun c => k_opts c = opts
              /\ exists d, isFloatDtype d = true /\ k_name c = ElemKernel d (tb_type o))
    (tBinOp_do o vals opts).
Proof. apply tBinOp_do_kernel. Qed.

(** A computation whose returned errors all satisfy [P]. *)
Lemma fails_bind {A B} (P : error -> Prop) (c : M A) (k : A -> M B) :
  (forall w e w', c w = (Fail e, w') -> P e) ->
  (forall a w e w', k a w = (Fail e, w') -> P e) ->
  forall w e w', bind c k w = (Fail e, w') -> P e.
Proof.
  intros Hc Hk w e w'. unfold bind. destruct (c w) as [[a|e0|m] w1] eqn:E.
  - apply Hk.
  - intros [= <- <-]. by eapply Hc.
  - done.
Qed.

Lemma tBinOp_do_plain_errors (o : tBinOp) (vals : list Value) (opts : list FuncOpt)
    (w : World) (e : error) (w' : World) :
  tBinOp_do o vals opts w = (Fail e, w') -> plainError e.
Proof.
  unfold tBinOp_do. case_bool_decide; simpl; [|by intros [= <- <-]].
  revert w e w'.
  apply fails_bind; [by intros w e w'; unfold lift, index; simpl; case_match; intros [= <- <-]|].
  intros v0.
  apply fails_bind; [by intros w e w'; unfold lift, index; simpl; case_match; intros [= <- <-]|].
  intros v1.
  apply fails_bind; [by intros w e w'; destruct v0; intros [= <- <-]|]. intros d0.
  apply fails_bind; [by intros w e w'; destruct v1; intros [= <- <-]|]. intros d1.
  case_bool_decide; simpl; [|by intros w e w' [= <- <-]].
  apply fails_bind.
  - intros w e w'. destruct (tensorLeft o).
    + destruct v0 as [| |T|]; try by intros [= <- <-].
      unfold bind, Materialize. destruct (Tensor_Materialize T (heap w)) as [a h1].
      destruct v1 as [| |T'|]; try by intros [= <- <-].
      simpl. by destruct (Tensor_Materialize T' h1).
    + destruct v1 as [| |T|]; try by intros [= <- <-].
      unfold bind, Materialize. destruct (Tensor_Materialize T (heap w)) as [a h1].
      destruct v0 as [| |T'|]; try by intros [= <- <-].
      simpl. by destruct (Tensor_Materialize T' h1).
  - intros ab. apply fails_bind.
    + intros w e w'.
      assert (forall reg d, callRegistry reg d (tb_type o) (fst ab) (snd ab) opts w
                            = (Fail e, w') -> plainError e) as Hreg.
      { intros reg d. unfold callRegistry. destruct (reg (tb_type o)) as [fn|];
          [|by intros [= <- <-]].
        unfold bind, invoke. destruct (fn _ _ _ _) as [[e0|r] h]; simpl;
          by intros [= <- <-]. }
      destruct d0; try (by intros [= <- <-]);
        destruct (isArith (tb_type o)); apply Hreg.
    + intros r w e w'. unfold lift, anyToValue. destruct r as [x|T]; [|done].
      destruct (Raw_Dtype x); by intros [= <- <-].
Qed.

(** X7.  [IncrDo] with a [Tensor] accumulator hands that tensor to the kernel as
    the buffer to add into: every kernel it runs gets exactly [WithIncr] of
    the accumulator.  It returns a nil error exactly when the operation
    returns a value, and it never returns the value-carrying error. *)
Theorem tBinOp_IncrDo_tensor_accumulator (o : tBinOp) (T : Tensor)
    (inputs : list Value) (w : World) :
  logsAtMostOne (fun c => k_opts c = [WithIncr T]) (tBinOp_IncrDo o (VTensor T) inputs)
  /\ (fst (tBinOp_IncrDo o (VTensor T) inputs w) = Ret tt
      <-> exists r, fst (tBinOp_do o inputs [WithIncr T] w) = Ret r)
  /\ (forall x, fst (tBinOp_IncrDo o (VTensor T) inputs w) <> Fail (noIncrErr x))
  /\ snd (tBinOp_IncrDo o (VTensor T) inputs w) = snd (tBinOp_do o inputs [WithIncr T] w).
Proof.
  split; [|split; [|split]].
  - simpl. apply logsAtMostOne_bind_r; [|done].
    eapply logsAtMostOne_mono; [|apply tBinOp_do_kernel]. by intros c [Ho _].
  - simpl. unfold bind.
    destruct (tBinOp_do o inputs [WithIncr T] w) as [[r|e|m] w1]; simpl;
      split; try done; eauto; by intros [r' ?].
  - intros x. simpl. unfold bind.
    destruct (tBinOp_do o inputs [WithIncr T] w) as [[r|e|m] w1] eqn:E; simpl; try done.
    intros [= ->]. by apply tBinOp_do_plain_errors in E.
  - simpl. unfold bind. by destruct (tBinOp_do o inputs [WithIncr T] w) as [[r|e|m] w1].
Qed.
End TensorOperatorProperties.

(* ================================================================= *)
(** ** The elementwise operation: construction and strategies *)

Section ConstructionProperties.
Context `{MathLib} `{TensorLib}.

(** X8.  An operation built by [newEBOByType] has the kind and operand types it
    was built from and [retSame] unset.  It holds a tensor operator, whose
    tensor side is the left one exactly when the first type is a tensor
    type, if one of the types is a tensor type; otherwise it holds a scalar
    operator of the first type's dtype. *)
Theorem newEBOByType_invariant (ot : BinaryOperatorType) (a b : Ty) (op : elemBinOp) :
  newEBOByType ot a b = Ret op ->
  binOpType (binOp op) = ot /\ arg0 op = a /\ arg1 op = b /\ retSame op = false
  /\ (elemBinOp_ReturnsPtr op = true ->
      binOp op = TBO (mkTBinOp ot (isTensorType a)))
  /\ (elemBinOp_ReturnsPtr op = false ->
      exists da db, a = TyDtype da /\ b = TyDtype db
                    /\ binOp op = SBO (mkScalarBinOp ot da)).
Proof.
  unfold newEBOByType, elemBinOp_ReturnsPtr.
  destruct a, b; simpl; try discriminate; intros [= <-]; simpl;
    repeat split; try done; eauto.
Qed.

(** X9.  [newEBOByType] panics exactly when the first type is neither a dtype
    nor a tensor type, or the first is a dtype and the second is neither;
    after a tensor type the second type is not looked at. *)
Theorem newEBOByType_succeeds_iff (ot : BinaryOperatorType) (a b : Ty) :
  (exists op, newEBOByType ot a b = Ret op)
  <-> isTensorType a = true
      \/ (isDtypeType a = true /\ (isDtypeType b = true \/ isTensorType b = true)).
Proof.
  unfold newEBOByType. destruct a, b; simpl; split;
    try (intros [op ?]; discriminate); eauto; intuition discriminate.
Qed.

(** X10.  An operation that holds a scalar operator evaluates the same way under
    every strategy, and evaluation changes nothing: there is no buffer to
    reuse or overwrite. *)
Theorem elemBinOp_scalar_strategies_agree (op : elemBinOp) (s : scalarBinOp)
    (prealloc : Value) (vals : list Value) (w : World) :
  binOp op = SBO s ->
  elemBinOp_UnsafeDo op vals w = elemBinOp_Do op vals w
  /\ elemBinOp_UsePreallocDo op prealloc vals w = elemBinOp_Do op vals w
  /\ snd (elemBinOp_Do op vals w) = w.
Proof.
  intros Hs. unfold elemBinOp_UnsafeDo, elemBinOp_UsePreallocDo.
  destruct (negb (elemBinOp_ReturnsPtr op)); rewrite ?Hs;
    (split; [done|split; [done|]]); unfold elemBinOp_Do; by rewrite Hs.
Qed.

(** With a tensor type among the operand types, the strategies differ only
    in the options they hand to the tensor operator. *)
Theorem elemBinOp_tensor_strategies (op : elemBinOp) (o : tBinOp)
    (T : Tensor) (vals : list Value) :
  binOp op = TBO o ->
  elemBinOp_ReturnsPtr op = true ->
  elemBinOp_Do op vals = tBinOp_do o vals (if retSame op then [AsSameType] else [])
  /\ elemBinOp_UnsafeDo op vals = tBinOp_do o vals [UseUnsafe]
  /\ elemBinOp_UsePreallocDo op (VTensor T) vals = tBinOp_do o vals [WithReuse T]
  /\ elemBinOp_IncrDo op (VTensor T) vals
     = (let* _ := tBinOp_do o vals [WithIncr T] in ret tt).
Proof.
  intros Ho Hptr.
  unfold elemBinOp_Do, elemBinOp_UnsafeDo, elemBinOp_UsePreallocDo, elemBinOp_IncrDo.
  rewrite Hptr, Ho. simpl. unfold tBinOp_Do. by destruct (retSame op).
Qed.

(** X11.  [OverwritesInput] names the first operand whose type is a tensor type,
    and is -1 exactly when [ReturnsPtr] is false. *)
Theorem OverwritesInput_spec (op : elemBinOp) :
  (elemBinOp_OverwritesInput op = -1 <-> elemBinOp_ReturnsPtr op = false)
  /\ (elemBinOp_OverwritesInput op = 0 <-> isTensorType (arg0 op) = true)
  /\ (elemBinOp_OverwritesInput op = 1
      <-> isTensorType (arg0 op) = false /\ isTensorType (arg1 op) = true)
  /\ (elemBinOp_OverwritesInput op = -1 \/ elemBinOp_OverwritesInput op = 0
      \/ elemBinOp_OverwritesInput op = 1).
Proof.
  unfold elemBinOp_OverwritesInput, elemBinOp_ReturnsPtr.
  destruct (isTensorType (arg0 op)), (isTensorType (arg1 op)); intuition (done || lia).
Qed.

(** [DiffWRT] answers for both operands alike: true for an arithmetic kind,
    false for a comparison.  It panics, rather than returning an error, for
    an operand count other than 2 and for a kind outside the enumeration. *)
Theorem DiffWRT_spec (op : elemBinOp) (inputs : Z) :
  (inputs = 2 -> validKind (binOpType (binOp op)) = true ->
   elemBinOp_DiffWRT op inputs
   = Ret [isArith (binOpType (binOp op)); isArith (binOpType (binOp op))])
  /\ (inputs <> 2 \/ validKind (binOpType (binOp op)) = false ->
      exists m, elemBinOp_DiffWRT op inputs = Panic m).
Proof.
  unfold elemBinOp_DiffWRT. split.
  - intros -> Hk. simpl. by destruct (binOpType (binOp op)).
  - intros [Hi|Hk].
    + destruct (Z.eqb_spec inputs 2) as [|_]; [done|]. simpl. eauto.
    + destruct (inputs =? 2); simpl; eauto.
      destruct (binOpType (binOp op)); try discriminate. simpl. eauto.
Qed.
End ConstructionProperties.

Section GradientProperties.
Context `{GraphBuilder}.

Lemma sumScalarGrads_length (inputs : Nodes) (i : nat) (todo retVal r : Nodes) :
  sumScalarGrads inputs i todo retVal = Ret r -> length r = length retVal.
Proof.
  revert i retVal. induction todo as [|grad rest IH]; intros i retVal; simpl.
  - by intros [= ->].
  - destruct (index inputs i) as [input| |]; simpl; try discriminate.
    destruct (Node_IsScalar input && negb (Node_IsScalar grad)).
    + destruct (Sum grad) as [s| |]; try discriminate.
      intros Hr. apply IH in Hr. rewrite Hr. apply length_insert.
    + apply IH.
Qed.

(** X12.  [DiffWRT] reports HadamardPow as differentiable in both operands,
    although its symbolic differentiation always fails. *)
Theorem pow_reported_differentiable (op : elemBinOp) (x y z gradZ : Node) :
  binOpType (binOp op) = powOpType ->
  elemBinOp_DiffWRT op 2 = Ret [true; true]
  /\ elemBinOp_SymDiff op [x; y] z gradZ
     = Fail (errors_New "hadamardPowDiffExpr not yet implemented").
Proof.
  intros Hk. unfold elemBinOp_DiffWRT, elemBinOp_SymDiff. simpl. by rewrite Hk.
Qed.

(** X13.  When [SymDiff] returns, it was given two inputs and returns two
    gradient nodes, one per operand. *)
Theorem elemBinOp_SymDiff_two_gradients (op : elemBinOp) (inputs : Nodes)
    (output gradNode : Node) (retVal : Nodes) :
  elemBinOp_SymDiff op inputs output gradNode = Ret retVal ->
  length inputs = 2%nat /\ length retVal = 2%nat.
Proof.
  unfold elemBinOp_SymDiff, checkArity, elemBinOp_Arity.
  case_bool_decide as Hlen; simpl; [|discriminate]. intros Hr. split; [done|].
  destruct inputs as [|x [|y [|? ?]]]; try discriminate. simpl in Hr.
  destruct (BinOpDiffExprs (binOpType (binOp op))) as [rule|] eqn:Hrule; [|discriminate].
  destruct (rule x y output gradNode) as [rs| |] eqn:Hrs; try discriminate.
  apply sumScalarGrads_length in Hr. rewrite length_fmap in Hr. rewrite Hr.
  destruct (binOpType (binOp op)); simpl in Hrule; simplify_eq; try done;
    unfold addDiffExpr, subDiffExpr, hadamardProdDiffExpr, hadamardDivDiffExpr in *;
    simplify_eq; repeat (case_match; simplify_eq); done.
Qed.

(** X14.  For addition, [SymDiff] returns the gradient node itself for each
    operand, tagged as a gradient node; for a scalar operand whose gradient
    is not scalar-shaped it returns the [Sum] of that node instead. *)
Theorem elemBinOp_SymDiff_add (op : elemBinOp) (x y z gradZ : Node) :
  binOpType (binOp op) = addOpType ->
  elemBinOp_SymDiff op [x; y] z gradZ
  = (let? gx := gradientFor x (setGroup gradClust gradZ) in
     let? gy := gradientFor y (setGroup gradClust gradZ) in
     Ret [gx; gy]).
Proof.
  intros Hk. unfold elemBinOp_SymDiff, gradientFor. simpl. rewrite Hk. simpl.
  destruct (Node_IsScalar x && negb (Node_IsScalar (setGroup gradClust gradZ)));
    destruct (Node_IsScalar y && negb (Node_IsScalar (setGroup gradClust gradZ)));
    simpl; try done;
    destruct (Sum (setGroup gradClust gradZ)) as [s| |]; simpl; try done.
Qed.
End GradientProperties.

(* ================================================================= *)
(** ** Numeric differentiation on scalars *)

Section NumericProperties.
Context `{MathLib} `{TensorLib} `{NodeLib}.

Lemma bind_eq {A B} (c : M A) (k : A -> M B) (w w1 : World) (a : A) :
  c w = (Ret a, w1) -> bind c k w = k a w1.
Proof. intros Hc. unfold bind. by rewrite Hc. Qed.

Lemma lift_eq {A} (c : Outcome A) (a : A) (w : World) : c = Ret a -> lift c w = (Ret a, w).
Proof. by intros ->. Qed.

Lemma deriv_eq (p : positive) (w : World) (dv : dualValue) :
  duals w !! p = Some dv -> deriv p w = (Ret (dv_d dv), w).
Proof. intros Hp. unfold deriv, bind, readDual. by rewrite Hp. Qed.

Lemma primal_eq (p : positive) (w : World) (dv : dualValue) :
  duals w !! p = Some dv -> primal p w = (Ret (dv_Value dv), w).
Proof. intros Hp. unfold primal, bind, readDual. by rewrite Hp. Qed.

Lemma SetDeriv_ignored_eq (p : positive) (d : Value) (w : World) (dv : dualValue) :
  duals w !! p = Some dv ->
  SetDeriv_ignored p d w = (Ret tt, setDual p (fst (SetDeriv dv d)) w).
Proof. intros Hp. unfold SetDeriv_ignored, bind, readDual. by rewrite Hp. Qed.

Lemma storeRerouted_eq (p : positive) (c : M unit) (w w1 : World) (x : Value)
    (dv : dualValue) :
  c w = (Fail (noIncrErr x), w1) ->
  duals w1 !! p = Some dv ->
  storeRerouted p c w = (Ret tt, setDual p (fst (SetDeriv dv x)) w1).
Proof. intros Hc Hp. unfold storeRerouted. rewrite Hc. by apply SetDeriv_ignored_eq. Qed.

Lemma Value_Type_float (dt : Dtype) (x : spec_float) (w : World) :
  Value_Type (floatScalar dt x) w = (Ret (TyDtype dt), w).
Proof. done. Qed.

(** A scalar operation of a basic arithmetic kind on numbers of a
    floating-point dtype returns their IEEE result, and changes nothing. *)
Lemma scalarOp_Do_eq (k : BinaryOperatorType) (dt : Dtype) (a b : spec_float) (w : World) :
  isBasicArith k = true -> isFloatDtype dt = true ->
  elemBinOp_Do (scalarOp k dt) [floatScalar dt a; floatScalar dt b] w
  = (Ret (floatScalar dt (arith k dt a b)), w).
Proof. intros Hk Hdt. destruct k; try discriminate; destruct dt; try discriminate; reflexivity. Qed.

(** [IncrDo] of such an operation hands back accumulator plus result. *)
Lemma scalarOp_IncrDo_eq (k : BinaryOperatorType) (dt : Dtype) (c a b : spec_float)
    (w : World) :
  isBasicArith k = true -> isFloatDtype dt = true ->
  elemBinOp_IncrDo (scalarOp k dt) (floatScalar dt c) [floatScalar dt a; floatScalar dt b] w
  = (Fail (noIncrErr (floatScalar dt (fadd dt c (arith k dt a b)))), w).
Proof. intros Hk Hdt. destruct k; try discriminate; destruct dt; try discriminate; reflexivity. Qed.

Lemma newEBOByType_scalar (k : BinaryOperatorType) (dt : Dtype) :
  newEBOByType k (TyDtype dt) (TyDtype dt) = Ret (scalarOp k dt).
Proof. done. Qed.

Lemma reduceScalarGrads_scalars (x y : Node) (px py : positive) (w : World)
    (dx dy : dualValue) :
  boundTo x = BDual px -> boundTo y = BDual py ->
  duals w !! px = Some dx -> duals w !! py = Some dy ->
  Value_isScalar (dv_d dx) = true -> Value_isScalar (dv_d dy) = true ->
  reduceScalarGrads [x; y] w = (Ret tt, w).
Proof.
  intros Hx Hy Hpx Hpy Hsx Hsy. simpl.
  unfold bind at 1. unfold lift, assert_dualValue. rewrite Hx.
  rewrite (bind_eq _ _ _ _ _ (deriv_eq _ _ _ Hpx)).
  destruct (dv_d dx); try discriminate. rewrite andb_false_r. simpl.
  unfold bind at 1. simpl.
  unfold bind at 1. rewrite Hy.
  rewrite (bind_eq _ _ _ _ _ (deriv_eq _ _ _ Hpy)).
  destruct (dv_d dy); try discriminate. rewrite andb_false_r. simpl. done.
Qed.

(** The state after the derivatives of x and y have been replaced. *)
Lemma lookup_setDual (p q : positive) (dv : dualValue) (w : World) :
  duals (setDual p dv w) !! q = if decide (p = q) then Some dv else duals w !! q.
Proof. unfold setDual. simpl. apply lookup_insert. Qed.

Ltac solve_lookup :=
  rewrite ?lookup_setDual; repeat case_decide; try congruence;
  first [reflexivity | eassumption].

Ltac run_step :=
  first
    [ erewrite bind_eq; [|apply lift_eq; reflexivity]
    | erewrite bind_eq; [|apply deriv_eq; solve_lookup]
    | erewrite bind_eq; [|apply primal_eq; solve_lookup]
    | erewrite bind_eq; [|apply Value_Type_float] ].

(** X18.  Numeric differentiation of a product of scalars: the derivative of x
    grows by y times the gradient of z, the derivative of y by x times the
    gradient of z, in IEEE arithmetic of the dtype; nothing else changes. *)
Theorem DoDiff_mul_scalars (op : elemBinOp) (x y z : Node) (px py pz : positive)
    (dt : Dtype) (xv xd yv yd zv zd : spec_float) (w : World) :
  binOpType (binOp op) = mulOpType ->
  isFloatDtype dt = true ->
  boundTo x = BDual px -> boundTo y = BDual py -> boundTo z = BDual pz ->
  px <> py -> px <> pz -> py <> pz ->
  duals w !! px = Some (floatDual dt xv xd) ->
  duals w !! py = Some (floatDual dt yv yd) ->
  duals w !! pz = Some (floatDual dt zv zd) ->
  (forall dv d, fst (SetDeriv dv d) = mkDualValue (dv_Value dv) d) ->
  elemBinOp_DoDiff op [x; y] z w
  = (Ret tt,
     setDual py (floatDual dt yv (fadd dt yd (fmul dt xv zd)))
       (setDual px (floatDual dt xv (fadd dt xd (fmul dt yv zd))) w)).
Proof.
  intros Hk Hdt Hx Hy Hz Hxy Hxz Hyz Hpx Hpy Hpz Hset.
  unfold elemBinOp_DoDiff. rewrite Hk. simpl.
  erewrite bind_eq; [|reflexivity]. erewrite bind_eq; [|reflexivity].
  erewrite bind_eq; [|reflexivity].
  erewrite bind_eq.
  2:{ unfold wrapping, hadamardProdDiff, assert_dualValue. rewrite Hx, Hy, Hz.
      repeat run_step.
      erewrite bind_eq.
      2:{ eapply storeRerouted_eq;
            [by apply (scalarOp_IncrDo_eq mulOpType dt xd yv zd)|eassumption]. }
      rewrite Hset. simpl.
      repeat run_step.
      erewrite storeRerouted_eq;
        [|by apply (scalarOp_IncrDo_eq mulOpType dt yd xv zd)|solve_lookup].
      rewrite Hset. reflexivity. }
  eapply reduceScalarGrads_scalars; try eassumption.
  - solve_lookup.
  - solve_lookup.
  - done.
  - done.
Qed.

Lemma accumulate_eq (k : BinaryOperatorType) (dt : Dtype) (n : Node) (p pz : positive)
    (v d zv zd : spec_float) (w : World) :
  isBasicArith k = true -> isFloatDtype dt = true ->
  duals w !! p = Some (floatDual dt v d) ->
  duals w !! pz = Some (floatDual dt zv zd) ->
  (forall dv d, fst (SetDeriv dv d) = mkDualValue (dv_Value dv) d) ->
  accumulate (scalarOp k dt) n p pz w
  = (Ret tt, setDual p (floatDual dt v (arith k dt d zd)) w).
Proof.
  intros Hk Hdt Hp Hpz Hset. unfold accumulate.
  repeat run_step.
  erewrite bind_eq.
  2:{ cbn [dv_d dv_Value floatDual]. unfold wrapping, elemBinOp_UnsafeDo.
      change (negb (elemBinOp_ReturnsPtr (scalarOp k dt))) with true. cbv iota.
      destruct (Node_IsScalar n); by rewrite (scalarOp_Do_eq k dt d zd w Hk Hdt). }
  change (negb (elemBinOp_ReturnsPtr (scalarOp k dt))) with true. cbv iota.
  rewrite orb_true_l. erewrite SetDeriv_ignored_eq by eassumption. by rewrite Hset.
Qed.

(** X16.  Numeric differentiation of a sum of scalars: the derivatives of x and of
    y both grow by the gradient of z. *)
Theorem DoDiff_add_scalars (op : elemBinOp) (x y z : Node) (px py pz : positive)
    (dt : Dtype) (xv xd yv yd zv zd : spec_float) (w : World) :
  binOpType (binOp op) = addOpType ->
  isFloatDtype dt = true ->
  boundScalar x dt px -> boundScalar y dt py -> boundScalar z dt pz ->
  px <> py -> px <> pz -> py <> pz ->
  duals w !! px = Some (floatDual dt xv xd) ->
  duals w !! py = Some (floatDual dt yv yd) ->
  duals w !! pz = Some (floatDual dt zv zd) ->
  (forall dv d, fst (SetDeriv dv d) = mkDualValue (dv_Value dv) d) ->
  elemBinOp_DoDiff op [x; y] z w
  = (Ret tt,
     setDual py (floatDual dt yv (fadd dt yd zd))
       (setDual px (floatDual dt xv (fadd dt xd zd)) w)).
Proof.
  intros Hk Hdt [Hx Htx] [Hy Hty] [Hz Htz] Hxy Hxz Hyz Hpx Hpy Hpz Hset.
  unfold elemBinOp_DoDiff. rewrite Hk. simpl.
  erewrite bind_eq; [|reflexivity]. erewrite bind_eq; [|reflexivity].
  erewrite bind_eq; [|reflexivity].
  erewrite bind_eq.
  2:{ unfold wrapping, addDiff, assert_dualValue, newElemBinOp.
      rewrite Hx, Hy, Hz, Htx, Hty, Htz.
      repeat run_step.
      erewrite bind_eq; [|by eapply (accumulate_eq addOpType)].
      repeat run_step.
      change (accumulate _ y py pz) with (accumulate (scalarOp addOpType dt) y py pz).
      erewrite (accumulate_eq addOpType); [reflexivity|done|done|solve_lookup|solve_lookup|done]. }
  eapply reduceScalarGrads_scalars; try eassumption; solve [solve_lookup | done].
Qed.

(** X17.  Numeric differentiation of a difference of scalars: the derivative of y
    shrinks by the gradient of z, the derivative of x grows by it. *)
Theorem DoDiff_sub_scalars (op : elemBinOp) (x y z : Node) (px py pz : positive)
    (dt : Dtype) (xv xd yv yd zv zd : spec_float) (w : World) :
  binOpType (binOp op) = subOpType ->
  isFloatDtype dt = true ->
  boundScalar x dt px -> boundScalar y dt py -> boundScalar z dt pz ->
  px <> py -> px <> pz -> py <> pz ->
  duals w !! px = Some (floatDual dt xv xd) ->
  duals w !! py = Some (floatDual dt yv yd) ->
  duals w !! pz = Some (floatDual dt zv zd) ->
  (forall dv d, fst (SetDeriv dv d) = mkDualValue (dv_Value dv) d) ->
  elemBinOp_DoDiff op [x; y] z w
  = (Ret tt,
     setDual px (floatDual dt xv (fadd dt xd zd))
       (setDual py (floatDual dt yv (fsub dt yd zd)) w)).
Proof.
  intros Hk Hdt [Hx Htx] [Hy Hty] [Hz Htz] Hxy Hxz Hyz Hpx Hpy Hpz Hset.
  unfold elemBinOp_DoDiff. rewrite Hk. simpl.
  erewrite bind_eq; [|reflexivity]. erewrite bind_eq; [|reflexivity].
  erewrite bind_eq; [|reflexivity].
  erewrite bind_eq.
  2:{ unfold wrapping, subDiff, assert_dualValue, newElemBinOp.
      rewrite Hx, Hy, Hz, Htx, Hty, Htz.
      repeat run_step.
      erewrite bind_eq; [|by eapply (accumulate_eq subOpType)].
      change (accumulate _ x px pz) with (accumulate (scalarOp addOpType dt) x px pz).
      erewrite (accumulate_eq addOpType); [reflexivity|done|done|solve_lookup|solve_lookup|done]. }
  eapply reduceScalarGrads_scalars; try eassumption; solve [solve_lookup | done].
Qed.

Lemma unary_Do_scalar (dt : Dtype) (g : spec_float -> spec_float) (b : bool)
    (a : spec_float) (w : World) :
  isFloatDtype dt = true ->
  elemUnaryOp_Do (mkElemUnaryOp (unaryOperatorFrom dt g) b false) [floatScalar dt a] w
  = (Ret (floatScalar dt (g a)), w).
Proof. intros Hdt. destruct dt; try discriminate; reflexivity. Qed.

(** X19.  Numeric differentiation of a quotient z = x / y of scalars: the
    derivative of x grows by the gradient of z divided by y, the derivative
    of y by the gradient of z times the negation of z / y, where the negation
    is the unary operator the table holds for the dtype. *)
Theorem DoDiff_div_scalars (op : elemBinOp) (x y z : Node) (px py pz : positive)
    (dt : Dtype) (g : spec_float -> spec_float)
    (xv xd yv yd zv zd : spec_float) (w : World) :
  binOpType (binOp op) = divOpType ->
  isFloatDtype dt = true ->
  boundScalar x dt px -> boundScalar y dt py -> boundScalar z dt pz ->
  dtypeOf (n_t y) = inr dt ->
  unaryOperatorOf dt negOpType = unaryOperatorFrom dt g ->
  px <> py -> px <> pz -> py <> pz ->
  duals w !! px = Some (floatDual dt xv xd) ->
  duals w !! py = Some (floatDual dt yv yd) ->
  duals w !! pz = Some (floatDual dt zv zd) ->
  (forall dv d, fst (SetDeriv dv d) = mkDualValue (dv_Value dv) d) ->
  elemBinOp_DoDiff op [x; y] z w
  = (Ret tt,
     setDual py (floatDual dt yv (fadd dt yd (fmul dt zd (g (fdiv dt zv yv)))))
       (setDual px (floatDual dt xv (fadd dt xd (fdiv dt zd yv))) w)).
Proof.
  intros Hk Hdt [Hx Htx] [Hy Hty] [Hz Htz] Hdy Hneg Hxy Hxz Hyz Hpx Hpy Hpz Hset.
  unfold elemBinOp_DoDiff. rewrite Hk. simpl.
  erewrite bind_eq; [|reflexivity]. erewrite bind_eq; [|reflexivity].
  erewrite bind_eq; [|reflexivity].
  erewrite bind_eq.
  2:{ unfold wrapping, hadamardDivDiff, assert_dualValue, newElemBinOp, newElemUnaryOp.
      rewrite Hx, Hy, Hz, Hty, Htz, Hdy.
      repeat run_step.
      erewrite bind_eq.
      2:{ eapply storeRerouted_eq;
            [by apply (scalarOp_IncrDo_eq divOpType dt xd zd yv)|eassumption]. }
      rewrite Hset. simpl.
      repeat run_step.
      erewrite bind_eq.
      2:{ unfold wrapping.
          by rewrite (scalarOp_Do_eq divOpType dt zv yv _ eq_refl Hdt). }
      assert ((match dt with
               | Float32 => sf32UnaryOperators negOpType
               | Float64 => sf64UnaryOperators negOpType
               | _ => nilUnaryOperator
               end) = unaryOperatorFrom dt g) as ->.
      { rewrite <- Hneg. by destruct dt. }
      repeat run_step.
      erewrite bind_eq.
      2:{ unfold wrapping. by rewrite (unary_Do_scalar dt g _ _ _ Hdt). }
      repeat run_step.
      erewrite storeRerouted_eq;
        [|by apply (scalarOp_IncrDo_eq mulOpType dt yd zd (g (fdiv dt zv yv)))|solve_lookup].
      rewrite Hset. reflexivity. }
  eapply reduceScalarGrads_scalars; try eassumption; solve [solve_lookup | done].
Qed.
End NumericProperties.

(* ================================================================= *)
(** ** The unary operation: operator and operand must agree *)

Section UnaryMismatch.
Context `{TensorLib}.

(** X20.  The unary operation asserts that its operator is the one for the
    operand's dtype.  An operator for the other dtype, or a missing one,
    makes forward evaluation panic, for a scalar as for a tensor; no kernel
    runs. *)
Theorem elemUnaryOp_do_operator_mismatch (op : elemUnaryOp) (x : Value) (dt : Dtype)
    (opts : list FuncOpt) (w : World) :
  isFloatDtype dt = true ->
  wellFormedFloat x dt = true
  \/ (exists T, x = VTensor T /\ TensorImpl_Dtype (impl T) = dt) ->
  (forall g, unOp op <> unaryOperatorFrom dt g) ->
  elemUnaryOp_do op [x] opts w = (Panic typeAssertPanic, w).
Proof.
  intros Hdt Hx Hop. unfold elemUnaryOp_do, bind, lift. simpl.
  destruct Hx as [Hx|(T & -> & HT)].
  - destruct x as [|[r t]| |]; try discriminate.
    destruct dt; try discriminate; destruct r, t; try discriminate; simpl;
      destruct (unOp op) as [f|f|] eqn:E; try done; by destruct (Hop f).
  - destruct (impl T); simpl in HT; subst dt; try discriminate;
      destruct (unOp op) as [f|f|] eqn:E; try done; by destruct (Hop f).
Qed.

(** The unary operation wants exactly one input, and says so with an error. *)
Theorem elemUnaryOp_do_arity (op : elemUnaryOp) (inputs : list Value)
    (opts : list FuncOpt) (w : World) :
  length inputs <> 1%nat ->
  exists e, elemUnaryOp_do op inputs opts w = (Fail e, w).
Proof.
  intros Hlen. unfold elemUnaryOp_do, bind, lift, checkArity.
  rewrite bool_decide_eq_false_2 by done. eauto.
Qed.
End UnaryMismatch.

(* ================================================================= *)
(** ** Linear algebra: arity, options, accumulation, shapes and hash *)

Section LinAlgProperties.
Context `{MathLib} `{TensorLib}.

(** An operand count other than two is an error value, with nothing
    changed, whatever the operands are. *)
Theorem linAlgBinOp_do_arity (op : linAlgBinOp) (inputs : list Value)
    (opts : list FuncOpt) (w : World) :
  length inputs <> 2%nat ->
  linAlgBinOp_do op inputs opts w
  = (Fail (NewError GraphError (Lit "%v has an arity of %d. Got %d instead")), w).
Proof.
  intros Hlen. unfold linAlgBinOp_do, bind, lift, checkArity.
  by rewrite bool_decide_eq_false_2.
Qed.

Lemma T_call_klog (T : Tensor) (w : World) : klog (snd (T_call T w)) = klog w.
Proof.
  unfold T_call. destruct (heap w !! addr T) as [o|]; [|done].
  by destruct (Tensor_T (t_view o)).
Qed.

Lemma logs_transposedFor {A} P (flag : bool) (T : Tensor) (body : M A) :
  logs P body -> logs P (transposedFor flag T body).
Proof.
  intros Hbody. unfold transposedFor. destruct flag; [|done].
  intros w. unfold bind. pose proof (T_call_klog T w) as H1.
  destruct (T_call T w) as [[[e|]|e|m] w1]; simpl in *;
    try (exists []; by rewrite H1).
  unfold with_defer. destruct (Hbody w1) as (calls & Hc & HP).
  destruct (body w1) as [r w2]. simpl in Hc.
  pose proof (T_call_klog T w2) as H2.
  destruct (T_call T w2) as [[?|?|?] w3]; simpl in *;
    exists calls; by rewrite H2, Hc, H1.
Qed.

(** The options [do] is given reach the MatMul, MatVecMul and OuterProd
    primitives unchanged, but never the inner product of VecDot, which is
    called without options. *)
Lemma linAlgBinOp_do_options (op : linAlgBinOp) (inputs : list Value)
    (opts : list FuncOpt) :
  logs (fun c => k_opts c = if bool_decide (la_op op = vecDotOperator) then [] else opts)
       (linAlgBinOp_do op inputs opts).
Proof.
  unfold linAlgBinOp_do.
  apply logs_bind; [apply logs_lift|]. intros _.
  apply logs_bind; [apply logs_lift|]. intros i0.
  apply logs_bind; [apply logs_lift|]. intros i1.
  apply logs_bind; [apply logs_lift|]. intros a.
  apply logs_bind; [apply logs_lift|]. intros b.
  apply logs_transposedFor. apply logs_transposedFor.
  apply logs_bind.
  - unfold linAlgBinOp_dispatch. destruct (la_op op); simpl.
    + apply logs_bind; [by apply logs_invoke|]. intros. apply logs_ret.
    + apply logs_bind; [by apply logs_invoke|]. intros. apply logs_ret.
    + apply logs_bind; [by apply logs_invoke|]. intros [e|r]; [apply logs_panic|].
      apply logs_bind; [by apply logs_same|]. intros. apply logs_ret.
    + apply logs_bind; [by apply logs_invoke|]. intros. apply logs_ret.
    + apply logs_ret.
  - intros [e|r]; [apply logs_fail|apply logs_lift].
Qed.

(** X21.  Whatever options [do] is given reach the kernels of MatMul,
    MatVecMul and OuterProd unchanged; the inner product of VecDot is
    always called without options. *)
Theorem linAlgBinOp_options_reach_kernels (op : linAlgBinOp) (inputs : list Value)
    (opts : list FuncOpt) :
  logs (fun c => k_opts c = if bool_decide (la_op op = vecDotOperator) then [] else opts)
       (linAlgBinOp_do op inputs opts).
Proof. apply linAlgBinOp_do_options. Qed.

(** X22.  [IncrDo] of VecDot with a [Tensor] accumulator never hands the
    accumulator to a kernel: the inner product is computed without options
    and its result is dropped. *)
Theorem vecDot_IncrDo_ignores_accumulator (op : linAlgBinOp) (T : Tensor)
    (inputs : list Value) :
  la_op op = vecDotOperator ->
  logs inPlaceFree (linAlgBinOp_IncrDo op (VTensor T) inputs).
Proof.
  intros Hop. simpl. apply logs_bind; [|intros; apply logs_ret].
  eapply logs_mono; [|apply linAlgBinOp_do_options].
  intros k. rewrite Hop. simpl. unfold inPlaceFree. by intros ->.
Qed.

(** X23.  [IncrDo] with an accumulator that is not a [Tensor]: never a nil error,
    and the value-carrying error exactly when the operation and then the
    unsafe [add] of accumulator and result succeed, carrying that sum. *)
Theorem linAlgBinOp_IncrDo_reroutes (op : linAlgBinOp) (incr : Value)
    (inputs : list Value) (w : World) :
  Value_isTensor incr = false ->
  fst (linAlgBinOp_IncrDo op incr inputs w) <> Ret tt
  /\ forall s w',
       linAlgBinOp_IncrDo op incr inputs w = (Fail (noIncrErr s), w')
       <-> exists r w1, linAlgBinOp_do op inputs [] w = (Ret r, w1)
                        /\ unsafeAdd incr r w1 = (Ret s, w').
Proof.
  intros Hincr.
  assert (linAlgBinOp_IncrDo op incr inputs
          = (let* retVal := wrapping doFail (linAlgBinOp_do op inputs []) in
             addAndReroute incr retVal)) as -> by (by destruct incr).
  apply reroute_spec.
Qed.

(** X24.  [UsePreallocDo] checks its destination before anything else: a
    destination that is not a [Tensor] is an error value even when the
    operands would make [do] panic. *)
Theorem linAlgBinOp_UsePreallocDo_destination (op : linAlgBinOp) (prealloc : Value)
    (inputs : list Value) (w : World) :
  Value_isTensor prealloc = false ->
  linAlgBinOp_UsePreallocDo op prealloc inputs w
  = (Fail (errors_Errorf (Lit "Expected Tensor as preallocated value. Got %v of %T instead")), w).
Proof. intros Hp. by destruct prealloc. Qed.
End LinAlgProperties.

Section LinAlgShapeProperties.
Context `{ShapeLib}.

(** X25.  Shape inference of MatVecMul accepts a matrix and a vector as soon as
    the vector's length equals the number of rows or the number of columns,
    and returns (rows, 1); it fails exactly when it equals neither. *)
Theorem MatVecMul_InferShape (tB : bool) (r c : Z) (xs : list Z) (n : Z) (ys : list Z) :
  linAlgBinOp_InferShape (mkLinAlgBinOp matVecMulOperator false tB)
    [DSShape (r :: c :: xs); DSShape (n :: ys)]
  = if negb (r =? n) && negb (c =? n)
    then Fail (errors_Errorf (Lit "Incompatible shapes: %v and %v"))
    else Ret [r; 1].
Proof.
  unfold linAlgBinOp_InferShape. simpl.
  destruct (r =? n); simpl; [done|]. by destruct (c =? n).
Qed.

(** X26.  Shape inference of MatMul checks nothing about the inner
    dimensions: for two shapes of rank two or more it returns the rows of
    the first and the columns of the second, whatever the inner dimensions
    are, and for no pair of non-nil shapes and no transposition does it
    return an error. *)
Theorem MatMul_InferShape_unchecked :
  (forall (r k k' c : Z) (xs ys : list Z),
     linAlgBinOp_InferShape (mkLinAlgBinOp matMulOperator false false)
       [DSShape (r :: k :: xs); DSShape (k' :: c :: ys)]
     = Ret [r; c])
  /\ (forall (tA tB : bool) (x y : Shape) (e : error),
        x <> [] -> y <> [] ->
        linAlgBinOp_InferShape (mkLinAlgBinOp matMulOperator tA tB) [DSShape x; DSShape y]
        <> Fail e).
Proof.
  split; [reflexivity|].
  intros tA tB x y e Hx Hy. unfold linAlgBinOp_InferShape. simpl.
  rewrite !bool_decide_eq_false_2 by done. simpl.
  unfold index.
  destruct ((if tA then transposeShape x else x) !! 0%nat); simpl; [|done].
  by destruct ((if tB then transposeShape y else y) !! 1%nat).
Qed.

End LinAlgShapeProperties.

(** X27.  The bytes hashed for a linear-algebra operation determine it: two
    operations that write the same bytes are the same operation, and no two
    of the operations share a hash code. *)
Theorem linAlgBinOp_hash_injective (op op' : linAlgBinOp) :
  (linAlgBinOp_WriteHash op = linAlgBinOp_WriteHash op' -> op = op')
  /\ (linAlgBinOp_Hashcode op = linAlgBinOp_Hashcode op' -> op = op').
Proof.
  destruct op as [o a b], op' as [o' a' b'].
  split; destruct o, a, b, o', a', b'; vm_compute; first [reflexivity | discriminate].
Qed.

(* ================================================================= *)
(** ** Sum: what shape inference returns *)

Lemma sumOp_collapse_Ret_inv (along : list Z) (shape s : Shape) :
  sumOp_collapse along shape = Ret s ->
  Forall (fun a => 0 <= a < Z.of_nat (length shape)) along.
Proof.
  revert shape. induction along as [|a rest IH]; intros shape; simpl; [done|].
  destruct (Z.leb_spec (Z.of_nat (length shape)) a) as [|Hlt]; [done|].
  unfold setIndex. destruct (Z.leb_spec 0 a) as [Hge|]; simpl; [|done].
  destruct (Z.ltb_spec a (Z.of_nat (length shape))) as [_|]; simpl; [|done].
  intros Hr. apply IH in Hr. rewrite length_insert in Hr.
  apply Forall_cons. split; [lia|done].
Qed.

(** X28.  The loop returns a shape exactly when every listed axis lies inside
    the shape; an axis at or past the rank is an error, a negative axis a
    panic. *)
Theorem sumOp_collapse_outcome (along : list Z) (shape : Shape) :
  ((exists s, sumOp_collapse along shape = Ret s)
   <-> Forall (fun a => 0 <= a < Z.of_nat (length shape)) along)
  /\ (forall a rest, along = a :: rest -> Z.of_nat (length shape) <= a ->
        exists e, sumOp_collapse along shape = Fail e)
  /\ (forall a rest, along = a :: rest -> a < 0 ->
        sumOp_collapse along shape = Panic indexPanic).
Proof.
  split; [split|split].
  - intros [s Hs]. by eapply sumOp_collapse_Ret_inv.
  - intros Hall. destruct (sumOp_collapse_spec along shape Hall) as (s & Hs & _). eauto.
  - intros a rest -> Ha. simpl.
    destruct (Z.leb_spec (Z.of_nat (length shape)) a) as [|]; [eauto|lia].
  - intros a rest -> Ha. simpl.
    destruct (Z.leb_spec (Z.of_nat (length shape)) a) as [|]; [lia|].
    unfold setIndex. destruct (Z.leb_spec 0 a) as [|]; [lia|]. done.
Qed.

(** X29.  Whatever [inferShape] returns is the scalar shape, or a shape of the
    input's rank in which each listed axis has size 1 and every other axis
    its old size: an axis is never removed. *)
Theorem sumOp_inferShape_result (op : sumOp) (ty : Ty) (input : Node) (s : Shape) :
  sumOp_inferShape op ty [input] = Ret s ->
  s = scalarShape
  \/ (length s = length (n_shape input)
      /\ forall i : nat,
           s !! i = if bool_decide (Z.of_nat i ∈ sum_along op)
                    then (fun _ => 1) <$> n_shape input !! i
                    else n_shape input !! i).
Proof.
  unfold sumOp_inferShape. simpl.
  destruct (Node_IsScalar input); [intros [= <-]; by left|].
  destruct (Node_IsVector input && negb (Node_IsRowVec input) && negb (Node_IsColVec input)).
  { case_match; [discriminate|]. intros [= <-]. by left. }
  unfold Node_Shape. case_match; [discriminate|].
  destruct (IsMonotonicInts (sum_along op)) as [monotonic incr1].
  case_match; [intros [= <-]; by left|].
  destruct (sumOp_collapse (sum_along op) (n_shape input)) as [s'| |] eqn:Hc;
    simpl; try discriminate.
  case_match; intros [= <-]; [by left|]. right.
  pose proof (sumOp_collapse_Ret_inv _ _ _ Hc) as Hall.
  destruct (sumOp_collapse_spec _ _ Hall) as (s'' & Hs'' & Hlen & Hget).
  rewrite Hc in Hs''. injection Hs'' as <-. done.
Qed.

(** X30.  For a plain vector (rank one, more than one element) the only axes
    accepted are none or axis 0, and the result is the scalar shape. *)
Theorem sumOp_inferShape_vector (along : list Z) (d n : Z) (shape : Shape) (ty : Ty)
    (input : Node) :
  n_shape input = [n] -> 1 < n ->
  sumOp_inferShape (mkSumOp along d shape) ty [input]
  = match along with
    | [] | [0] => Ret scalarShape
    | _ => Fail (errors_Errorf (Lit "Shape mismatch: along is %v. Shape is %v"))
    end.
Proof.
  intros Hs Hn.
  assert ((n =? 1) = false) as Hn1 by (apply Z.eqb_neq; lia).
  assert ((1 <? n) = true) as Hn2 by (apply Z.ltb_lt; lia).
  unfold sumOp_inferShape, Node_IsScalar, Node_IsVector, Node_IsRowVec, Node_IsColVec,
    Shape_IsScalar, Shape_IsVector, Shape_IsRowVec, Shape_IsColVec.
  simpl. rewrite Hs, Hn1, Hn2. simpl.
  destruct along as [|a [|b rest]]; [done| |].
  - simpl. by destruct a as [|p|p].
  - simpl. by destruct a as [|p|p].
Qed.

(** Shape inference wants exactly one input node. *)
Theorem sumOp_inferShape_arity (op : sumOp) (ty : Ty) (inputs : Nodes) :
  length inputs <> 1%nat ->
  sumOp_inferShape op ty inputs
  = Fail (NewError GraphError (Lit "sumOp requires only one input")).
Proof. intros Hlen. unfold sumOp_inferShape. by rewrite bool_decide_eq_false_2. Qed.

(* ================================================================= *)
(** ** The further properties at concrete inputs *)

Section MoreExamples.
Import Sample Sample2 Inputs.

Lemma scalarBinOp_Do_result_dtype_witness :
  scalarBinOp_Do (mkScalarBinOp ltOpType Float64) false [f64 2; f64 3]
  = Ret (VScalar (mkScalar (RBool true) Bool))
  /\ scalarDtype (VScalar (mkScalar (RBool true) Bool)) = Some Bool.
Proof.
  split; [reflexivity|].
  exact (scalarBinOp_Do_result_dtype (mkScalarBinOp ltOpType Float64) false
           [f64 2; f64 3] _ eq_refl).
Defined.

Lemma scalarBinOp_Do_rejects_witness :
  scalarOperands Float64 [f64 1; floatScalar Float32 (float32_of_Z 1)] = false
  /\ exists e, scalarBinOp_Do (mkScalarBinOp addOpType Float64) true
                 [f64 1; floatScalar Float32 (float32_of_Z 1)] = Fail e.
Proof.
  split; [reflexivity|].
  exact (scalarBinOp_Do_rejects (mkScalarBinOp addOpType Float64) true
           [f64 1; floatScalar Float32 (float32_of_Z 1)] eq_refl).
Defined.

Lemma tBinOp_do_dtype_mismatch_witness :
  Value_Dtype (VTensor vecA) = Ret Float64
  /\ Value_Dtype (floatScalar Float32 (float32_of_Z 1)) = Ret Float32
  /\ bool_decide (Float64 = Float32) = false
  /\ tBinOp_do mulLeft [VTensor vecA; floatScalar Float32 (float32_of_Z 1)] [] world
     = (Fail (errors_Errorf (Lit "Dtype mismatch for bin op: %v and %v")), world).
Proof.
  do 3 (split; [reflexivity|]).
  exact (tBinOp_do_dtype_mismatch mulLeft (VTensor vecA)
           (floatScalar Float32 (float32_of_Z 1)) Float64 Float32 [] world
           eq_refl eq_refl eq_refl).
Defined.

Lemma tBinOp_do_needs_tensor_witness :
  Value_Dtype (f64 1) = Ret Float64
  /\ Value_isTensor (if tensorLeft mulLeft then f64 1 else f64 2) = false
  /\ exists e, tBinOp_do mulLeft [f64 1; f64 2] [] world = (Fail e, world).
Proof.
  do 2 (split; [reflexivity|]).
  exact (tBinOp_do_needs_tensor mulLeft (f64 1) (f64 2) Float64 [] world
           eq_refl eq_refl eq_refl).
Defined.

Lemma newEBOByType_invariant_witness :
  newEBOByType addOpType (TyTensor 1 (TyDtype Float64)) (TyDtype Float64)
  = Ret (mkElemBinOp (TBO (mkTBinOp addOpType true))
           (TyTensor 1 (TyDtype Float64)) (TyDtype Float64) false)
  /\ binOpType (binOp (mkElemBinOp (TBO (mkTBinOp addOpType true))
                         (TyTensor 1 (TyDtype Float64)) (TyDtype Float64) false))
     = addOpType.
Proof.
  split; [reflexivity|].
  exact (proj1 (newEBOByType_invariant addOpType (TyTensor 1 (TyDtype Float64))
                  (TyDtype Float64) _ eq_refl)).
Defined.

Lemma elemBinOp_scalar_strategies_agree_witness :
  binOp ltFloat64 = SBO (mkScalarBinOp ltOpType Float64)
  /\ elemBinOp_UnsafeDo ltFloat64 [f64 2; f64 3] world
     = elemBinOp_Do ltFloat64 [f64 2; f64 3] world.
Proof.
  split; [reflexivity|].
  exact (proj1 (elemBinOp_scalar_strategies_agree ltFloat64 _ VNil [f64 2; f64 3]
                  world eq_refl)).
Defined.

Lemma pow_reported_differentiable_witness :
  binOpType (binOp (scalarOp powOpType Float64)) = powOpType
  /\ elemBinOp_DiffWRT (scalarOp powOpType Float64) 2 = Ret [true; true].
Proof.
  split; [reflexivity|].
  exact (proj1 (pow_reported_differentiable (scalarOp powOpType Float64)
                  (scalarNode 1 1) (scalarNode 2 2) (scalarNode 3 3) (scalarNode 4 4)
                  eq_refl)).
Defined.

Lemma elemBinOp_SymDiff_two_gradients_witness :
  elemBinOp_SymDiff (scalarOp addOpType Float64) [scalarNode 1 1; scalarNode 2 2]
    (scalarNode 3 3) (scalarNode 4 4)
  = Ret [setGroup gradClust (scalarNode 4 4); setGroup gradClust (scalarNode 4 4)]
  /\ length [scalarNode 1 1; scalarNode 2 2] = 2%nat.
Proof.
  split; [reflexivity|].
  exact (proj1 (elemBinOp_SymDiff_two_gradients (scalarOp addOpType Float64)
                  [scalarNode 1 1; scalarNode 2 2] (scalarNode 3 3) (scalarNode 4 4)
                  _ eq_refl)).
Defined.

(** The gradient of a sum with respect to a scalar operand, for a gradient
    node of shape (2,3), is the [Sum] of the gradient node. *)
Lemma elemBinOp_SymDiff_add_witness :
  binOpType (binOp (scalarOp addOpType Float64)) = addOpType
  /\ elemBinOp_SymDiff (scalarOp addOpType Float64) [scalarNode 1 1; matrix23]
       (scalarNode 3 3) matrix23
     = (let? gx := gradientFor (scalarNode 1 1) (setGroup gradClust matrix23) in
        let? gy := gradientFor matrix23 (setGroup gradClust matrix23) in
        Ret [gx; gy]).
Proof.
  split; [reflexivity|].
  exact (elemBinOp_SymDiff_add (scalarOp addOpType Float64) (scalarNode 1 1) matrix23
           (scalarNode 3 3) matrix23 eq_refl).
Defined.

Lemma InferShape_error_only_on_nil_witness :
  elemBinOp_InferShape ltFloat64 [DSNil; DSShape [2]] = Fail (errors_Errorf nyiFail)
  /\ ([DSNil; DSShape [2]] !! 0%nat = Some DSNil
      \/ [DSNil; DSShape [2]] !! 1%nat = Some DSNil).
Proof.
  split; [reflexivity|].
  exact (InferShape_error_only_on_nil ltFloat64 [DSNil; DSShape [2]] _ eq_refl).
Defined.

Lemma sample_SetDeriv (dv : dualValue) (d : Value) :
  fst (SetDeriv dv d) = mkDualValue (dv_Value dv) d.
Proof. reflexivity. Qed.

(** x = 2, y = 3, z = 6 with gradient 1: derivatives 0 + 1 and 0 + 1. *)
Lemma DoDiff_add_scalars_witness :
  isFloatDtype Float64 = true
  /\ elemBinOp_DoDiff (scalarOp addOpType Float64) [scalarNode 1 1; scalarNode 2 2]
       (scalarNode 3 3) product
     = (Ret tt,
        setDual 2 (floatDual Float64 (float64_of_Z 3)
                     (fadd Float64 (float64_of_Z 0) (float64_of_Z 1)))
          (setDual 1 (floatDual Float64 (float64_of_Z 2)
                        (fadd Float64 (float64_of_Z 0) (float64_of_Z 1))) product)).
Proof.
  split; [reflexivity|].
  apply (DoDiff_add_scalars (scalarOp addOpType Float64) (scalarNode 1 1) (scalarNode 2 2)
           (scalarNode 3 3) 1 2 3 Float64 _ _ _ _ (float64_of_Z 6) _ product);
    first [reflexivity | discriminate | split; reflexivity | exact sample_SetDeriv].
Defined.

(** The same values under subtraction: derivatives 0 + 1 and 0 - 1. *)
Lemma DoDiff_sub_scalars_witness :
  isFloatDtype Float64 = true
  /\ elemBinOp_DoDiff (scalarOp subOpType Float64) [scalarNode 1 1; scalarNode 2 2]
       (scalarNode 3 3) product
     = (Ret tt,
        setDual 1 (floatDual Float64 (float64_of_Z 2)
                     (fadd Float64 (float64_of_Z 0) (float64_of_Z 1)))
          (setDual 2 (floatDual Float64 (float64_of_Z 3)
                        (fsub Float64 (float64_of_Z 0) (float64_of_Z 1))) product)).
Proof.
  split; [reflexivity|].
  apply (DoDiff_sub_scalars (scalarOp subOpType Float64) (scalarNode 1 1) (scalarNode 2 2)
           (scalarNode 3 3) 1 2 3 Float64 _ _ _ _ (float64_of_Z 6) _ product);
    first [reflexivity | discriminate | split; reflexivity | exact sample_SetDeriv].
Defined.

(** The same values under multiplication: derivatives 0 + 3 * 1 and
    0 + 2 * 1. *)
Lemma DoDiff_mul_scalars_witness :
  isFloatDtype Float64 = true
  /\ elemBinOp_DoDiff (scalarOp mulOpType Float64) [scalarNode 1 1; scalarNode 2 2]
       (scalarNode 3 3) product
     = (Ret tt,
        setDual 2 (floatDual Float64 (float64_of_Z 3)
                     (fadd Float64 (float64_of_Z 0)
                        (fmul Float64 (float64_of_Z 2) (float64_of_Z 1))))
          (setDual 1 (floatDual Float64 (float64_of_Z 2)
                        (fadd Float64 (float64_of_Z 0)
                           (fmul Float64 (float64_of_Z 3) (float64_of_Z 1)))) product)).
Proof.
  split; [reflexivity|].
  apply (DoDiff_mul_scalars (scalarOp mulOpType Float64) (scalarNode 1 1) (scalarNode 2 2)
           (scalarNode 3 3) 1 2 3 Float64 _ _ _ _ (float64_of_Z 6) _ product);
    first [reflexivity | discriminate | exact sample_SetDeriv].
Defined.

(** The same values under division, with negation as the unary operator. *)
Lemma DoDiff_div_scalars_witness :
  isFloatDtype Float64 = true
  /\ unaryOperatorOf Float64 negOpType = unaryOperatorFrom Float64 SFopp
  /\ elemBinOp_DoDiff (scalarOp divOpType Float64) [scalarNode 1 1; scalarNode 2 2]
       (scalarNode 3 3) product
     = (Ret tt,
        setDual 2 (floatDual Float64 (float64_of_Z 3)
                     (fadd Float64 (float64_of_Z 0)
                        (fmul Float64 (float64_of_Z 1)
                           (SFopp (fdiv Float64 (float64_of_Z 6) (float64_of_Z 3))))))
          (setDual 1 (floatDual Float64 (float64_of_Z 2)
                        (fadd Float64 (float64_of_Z 0)
                           (fdiv Float64 (float64_of_Z 1) (float64_of_Z 3)))) product)).
Proof.
  split; [reflexivity|]. split; [reflexivity|].
  apply (DoDiff_div_scalars (scalarOp divOpType Float64) (scalarNode 1 1) (scalarNode 2 2)
           (scalarNode 3 3) 1 2 3 Float64 SFopp _ _ _ _ _ _ product);
    first [reflexivity | discriminate | split; reflexivity | exact sample_SetDeriv].
Defined.

Lemma elemUnaryOp_do_operator_mismatch_witness :
  isFloatDtype Float64 = true
  /\ wellFormedFloat (f64 1) Float64 = true
  /\ elemUnaryOp_do (mkElemUnaryOp (sf32UnaryOperator SFopp) false false) [f64 1] [] world
     = (Panic typeAssertPanic, world).
Proof.
  do 2 (split; [reflexivity|]).
  apply (elemUnaryOp_do_operator_mismatch
           (mkElemUnaryOp (sf32UnaryOperator SFopp) false false) (f64 1) Float64 [] world);
    [reflexivity|left; reflexivity|intros g; discriminate].
Defined.

Lemma vecDot_IncrDo_ignores_accumulator_witness :
  la_op vecDotT = vecDotOperator
  /\ logs inPlaceFree (linAlgBinOp_IncrDo vecDotT (VTensor vecA) [VTensor vecA; VTensor vecB]).
Proof.
  split; [reflexivity|].
  exact (vecDot_IncrDo_ignores_accumulator vecDotT vecA [VTensor vecA; VTensor vecB] eq_refl).
Defined.

Lemma linAlgBinOp_IncrDo_reroutes_witness :
  Value_isTensor (f64 10) = false
  /\ fst (linAlgBinOp_IncrDo vecDotT (f64 10) [VTensor vecA; VTensor vecB] world) <> Ret tt.
Proof.
  split; [reflexivity|].
  exact (proj1 (linAlgBinOp_IncrDo_reroutes vecDotT (f64 10) [VTensor vecA; VTensor vecB]
                  world eq_refl)).
Defined.

Lemma sumOp_inferShape_result_witness :
  sumOp_inferShape sumAxis1 (TyDtype Float64) [matrix23] = Ret [2; 1]
  /\ ([2; 1] = scalarShape
      \/ (length [2; 1] = length (n_shape matrix23)
          /\ forall i : nat,
               [2; 1] !! i = if bool_decide (Z.of_nat i ∈ sum_along sumAxis1)
                             then (fun _ => 1) <$> n_shape matrix23 !! i
                             else n_shape matrix23 !! i)).
Proof.
  split; [reflexivity|].
  exact (sumOp_inferShape_result sumAxis1 (TyDtype Float64) matrix23 [2; 1] eq_refl).
Defined.

Lemma sumOp_inferShape_vector_witness :
  n_shape (mkNode 1 (TyTensor 1 (TyDtype Float64)) [3] exprGraphClust BNone) = [3]
  /\ 1 < 3
  /\ sumOp_inferShape (mkSumOp [1] 1 [3]) (TyDtype Float64)
       [mkNode 1 (TyTensor 1 (TyDtype Float64)) [3] exprGraphClust BNone]
     = Fail (errors_Errorf (Lit "Shape mismatch: along is %v. Shape is %v")).
Proof.
  split; [reflexivity|]. split; [lia|].
  exact (sumOp_inferShape_vector [1] 1 3 [3] (TyDtype Float64)
           (mkNode 1 (TyTensor 1 (TyDtype Float64)) [3] exprGraphClust BNone)
           eq_refl eq_refl).
Defined.

Lemma linAlgBinOp_UsePreallocDo_destination_witness :
  Value_isTensor (f64 10) = false
  /\ linAlgBinOp_UsePreallocDo vecDotT (f64 10) [] world
     = (Fail (errors_Errorf (Lit "Expected Tensor as preallocated value. Got %v of %T instead")),
        world).
Proof.
  split; [reflexivity|].
  exact (linAlgBinOp_UsePreallocDo_destination vecDotT (f64 10) [] world eq_refl).
Defined.

(** The inner product 1*4 + 2*5 + 3*6 = 32 added to the accumulator 10 is
    handed back in the value-carrying error. *)
Example linAlgBinOp_IncrDo_scalar_accumulator :
  fst (linAlgBinOp_IncrDo vecDotT (f64 10) [VTensor vecA; VTensor vecB] world)
  = Fail (noIncrErr (f64 42)).
Proof. vm_compute. reflexivity. Qed.
End MoreExamples.
